(* ===================================================================== *)
(* tidy-backend: the messaging controller (getConversation, getUsers,    *)
(* sendMessage, deleteMessage), the signup controller and the request    *)
(* validators, embedded as functions over an explicit store.             *)
(*                                                                       *)
(* The messaging controller is taken in its version with the access     *)
(* rules and deleteMessage; the tree also holds an earlier one without   *)
(* them.                                                                 *)
(*                                                                       *)
(* Conventions of the embedding                                          *)
(*  - a JS string is the sequence of its UTF-16 code units (seq nat);    *)
(*  - a table is the list of its rows in insertion order;                *)
(*  - a handler is a function from the world (store contents, the plan   *)
(*    of store failures, the UUID and clock inputs, the log of store     *)
(*    calls) to a response and a new world;                              *)
(*  - `return res.status(..).json(..)` and `throw` both leave the body   *)
(*    early; the `catch` of each handler turns a throw into a 500.       *)
(* ===================================================================== *)

From HB Require Import structures.
From Stdlib Require Import Ascii String.
From mathcomp Require Import ssreflect ssrfun ssrbool eqtype ssrnat seq path.

#[local] Set Warnings "-notation-overridden,-deprecated,-abstract-large-number".
Set Implicit Arguments.
Unset Strict Implicit.
Unset Printing Implicit Defensive.

(* --------------------------------------------------------------------- *)
(* JavaScript strings and values                                         *)
(* --------------------------------------------------------------------- *)

Module JS.

Definition jsstring := seq nat.

(* String literals of the source, as code units. *)
Fixpoint str (s : String.string) : jsstring :=
  match s with
  | String.EmptyString => [::]
  | String.String c s' => nat_of_ascii c :: str s'
  end.

(* WhiteSpace and LineTerminator code units of ECMAScript: what
   String.prototype.trim strips and what \s matches. *)
Definition is_ws (c : nat) : bool :=
  (c \in [:: 9; 10; 11; 12; 13; 32; 160; 5760; 8232; 8233; 8239; 8287;
             12288; 65279])
  || ((8192 <= c) && (c <= 8202)).

Definition trimStart (s : jsstring) : jsstring :=
  drop (find (predC is_ws) s) s.

Definition trimEnd (s : jsstring) : jsstring :=
  rev (trimStart (rev s)).

(* s.trim() *)
Definition trim (s : jsstring) : jsstring := trimEnd (trimStart s).

(* The values read from a request body.  Numbers matter only through
   their truthiness (0 is falsy); arrays, objects and functions are
   JObj. *)
Inductive jsval :=
  | JUndefined
  | JNull
  | JBool of bool
  | JNum of nat
  | JStr of jsstring
  | JObj.

(* ToBoolean *)
Definition truthy (v : jsval) : bool :=
  match v with
  | JUndefined | JNull => false
  | JBool b => b
  | JNum n => n != 0
  | JStr s => s != [::]
  | JObj => true
  end.

(* A parsed JSON object: property names with their values. *)
Definition jsobj := seq (jsstring * jsval).

(* The property names a parsed body inherits from Object.prototype.
   Read on a body that has no property of its own under the name, each
   gives a function (or, for __proto__, the prototype object): a truthy
   value that is not a string. *)
Definition inherited : seq jsstring :=
  [:: str "constructor"; str "__defineGetter__"; str "__defineSetter__";
      str "hasOwnProperty"; str "__lookupGetter__"; str "__lookupSetter__";
      str "isPrototypeOf"; str "propertyIsEnumerable"; str "toString";
      str "valueOf"; str "__proto__"; str "toLocaleString"].

(* data[field], and the fields taken by const { .. } = req.body: the
   body's own property, else the inherited one, else undefined. *)
Definition get (o : jsobj) (k : jsstring) : jsval :=
  if [seq kv <- o | kv.1 == k] is kv :: _ then kv.2
  else if k \in inherited then JObj else JUndefined.

(* What a JS expression evaluates to: a value or a thrown error. *)
Inductive completion (A : Type) :=
  | Returns of A
  | Throws of jsstring.
Arguments Throws {A}.

(* The string held by a value; used where the source has already made
   sure, by calling a string method on it, that the value is a string. *)
Definition string_of (v : jsval) : jsstring :=
  if v is JStr s then s else [::].

(* a === v, for a string a *)
Definition strict_eq (a : jsstring) (v : jsval) : bool :=
  if v is JStr s then a == s else false.

(* v === true *)
Definition strict_true (v : jsval) : bool :=
  if v is JBool true then true else false.

(* v.trim(): only strings have the method. *)
Definition call_trim (v : jsval) : completion jsstring :=
  if v is JStr s then Returns (trim s)
  else Throws (str "data[field].trim is not a function").

End JS.
Import JS.

(* --------------------------------------------------------------------- *)
(* The store: config/database.sql                                        *)
(* --------------------------------------------------------------------- *)

Definition uuid := jsstring.
Definition timestamp := nat.

(* The id columns are of type UUID.  The store writes a uuid as 8-4-4-4-12
   lower-case hexadecimal digits, and reads other spellings of the same
   value (upper case, for one) as that value.  Here an id is its text and
   the store compares texts: this is the store's comparison when both
   texts are in the written form, as the ids the store hands out always
   are; an id of a request need not be. *)
Definition hex_digit (c : nat) : bool :=
  ((48 <= c) && (c <= 57)) || ((97 <= c) && (c <= 102)).

Definition HYPHEN : nat := 45.

Definition canonical_uuid (s : jsstring) : bool :=
  (size s == 36)
  && all (fun ic : nat * nat =>
            if ic.1 \in [:: 8; 13; 18; 23] then ic.2 == HYPHEN
            else hex_digit ic.2)
         (zip (iota 0 36) s).

Module User.
Record t := Mk {
  id : uuid;
  email : jsstring;
  password : jsstring;
  created_at : timestamp
}.
Definition to_tuple (u : t) := (id u, email u, password u, created_at u).
Definition of_tuple (x : uuid * jsstring * jsstring * timestamp) :=
  let: (i, e, p, c) := x in Mk i e p c.
Lemma user_tupleK : cancel to_tuple of_tuple.
Proof. by case. Qed.
End User.
HB.instance Definition _ := Equality.copy User.t (can_type User.user_tupleK).

Module Profile.
Record t := Mk {
  id : uuid;
  user_id : uuid;
  name : jsstring;
  role : jsstring;
  created_at : timestamp
}.
Definition to_tuple (p : t) :=
  (id p, user_id p, name p, role p, created_at p).
Definition of_tuple (x : uuid * uuid * jsstring * jsstring * timestamp) :=
  let: (i, u, n, r, c) := x in Mk i u n r c.
Lemma profile_tupleK : cancel to_tuple of_tuple.
Proof. by case. Qed.
End Profile.
HB.instance Definition _ := Equality.copy Profile.t (can_type Profile.profile_tupleK).

Module Message.
Record t := Mk {
  id : uuid;
  sender_id : uuid;
  receiver_id : uuid;
  message : jsstring;
  deleted_for_sender : bool;
  deleted_for_receiver : bool;
  created_at : timestamp
}.
Definition to_tuple (m : t) :=
  (id m, sender_id m, receiver_id m, message m,
   deleted_for_sender m, deleted_for_receiver m, created_at m).
Definition of_tuple
  (x : uuid * uuid * uuid * jsstring * bool * bool * timestamp) :=
  let: (i, s, r, b, ds, dr, c) := x in Mk i s r b ds dr c.
Lemma message_tupleK : cancel to_tuple of_tuple.
Proof. by case. Qed.
End Message.
HB.instance Definition _ := Equality.copy Message.t (can_type Message.message_tupleK).

Record database := Database {
  users : seq User.t;
  profiles : seq Profile.t;
  messages : seq Message.t
}.

(* The { data, error } pair of a supabase-js call. *)
Record pgerror := PgError { code : jsstring; emsg : jsstring }.

Inductive result (A : Type) :=
  | Data of A
  | Error of pgerror.
Arguments Error {A}.

(* PostgREST's answer when .single() does not find exactly one row. *)
Definition PGRST116 : pgerror :=
  PgError (str "PGRST116")
          (str "JSON object requested, multiple (or no) rows returned").

(* Store calls, as they appear in the log. *)
Inductive table := Users | Profiles | Messages.

Inductive store_op :=
  | OpSelect of table
  | OpInsert of table & uuid
  | OpUpdate of table & uuid
  | OpDelete of table & uuid.

Record event := Event { op : store_op; failed : bool }.

(* The world a request runs in.  [faults] is the plan of store failures:
   its head says whether the next store call fails, and with what error;
   past its end no call fails.  [uuids] and [now] are what
   uuid_generate_v4() and NOW() will answer. *)
Record world := World {
  db : database;
  faults : seq (option pgerror);
  uuids : seq uuid;
  now : timestamp;
  log : seq event
}.

(* --------------------------------------------------------------------- *)
(* Responses and the handler monad                                       *)
(* --------------------------------------------------------------------- *)

(* data.user and data.token of a signup answer. *)
Record session := Session {
  s_id : uuid;
  s_email : jsstring;
  s_name : jsstring;
  s_role : jsstring;
  s_created_at : timestamp;
  s_token : jsstring
}.

Inductive payload :=
  | NoData
  | ProfileList of seq Profile.t
  | MessageList of seq Message.t
  | OneMessage of Message.t
  | SessionData of session.

(* res.status(status).json({ success, message, data, error }) *)
Record response := Response {
  status : nat;
  success : bool;
  message : option jsstring;
  data : payload;
  error : option jsstring
}.

(* How a handler body is left early. *)
Inductive exit :=
  | Respond of response
  | Raise of jsstring.

Definition H (A : Type) := world -> (exit + A) * world.

Definition pure A (a : A) : H A := fun w => (inr a, w).

Definition bind A B (c : H A) (k : A -> H B) : H B :=
  fun w => match c w with
           | (inl e, w') => (inl e, w')
           | (inr a, w') => k a w'
           end.

Notation "'let*' x ':=' c 'in' k" := (bind c (fun x => k))
  (at level 10, x name, k at level 200).

(* return res.status(..).json(..) *)
Definition respond A (r : response) : H A := fun w => (inl (Respond r), w).
Arguments respond {A}.

(* throw e, seen by the handler's catch through e.message *)
Definition throw A (m : jsstring) : H A := fun w => (inl (Raise m), w).
Arguments throw {A}.

(* if (error) throw error; *)
Definition orThrow A (r : result A) : H A :=
  match r with
  | Data a => pure a
  | Error e => throw (emsg e)
  end.

(* A pure JS expression evaluated inside a handler. *)
Definition eval A (c : completion A) : H A :=
  match c with
  | Returns a => pure a
  | Throws m => throw m
  end.

(* try { body } catch (error) { res.status(500).json(..) } *)
Definition handle (catch_message : jsstring) (body : H response)
  : world -> response * world :=
  fun w => match body w with
           | (inr r, w') => (r, w')
           | (inl (Respond r), w') => (r, w')
           | (inl (Raise m), w') =>
               (Response 500 false (Some catch_message) NoData (Some m), w')
           end.

(* --------------------------------------------------------------------- *)
(* Store calls                                                           *)
(* --------------------------------------------------------------------- *)

Definition is_data A (r : result A) : bool :=
  if r is Data _ then true else false.

(* One round trip to the store.  A planned failure answers its error and
   leaves the tables alone; otherwise [run] answers from the tables. *)
Definition store_call A (o : store_op)
  (run : database -> result A * database) : H (result A) :=
  fun w =>
    match faults w with
    | Some e :: fs =>
        (inr (Error e),
         World (db w) fs (uuids w) (now w) (rcons (log w) (Event o true)))
    | _ =>
        let: (r, d) := run (db w) in
        (inr r,
         World d (behead (faults w)) (uuids w) (now w)
               (rcons (log w) (Event o (~~ is_data r))))
    end.

(* .single() *)
Definition single A (rows : seq A) : result A :=
  if rows is [:: r] then Data r else Error PGRST116.

Definition select_rows A (t : table) (rows : database -> seq A)
  : H (result (seq A)) :=
  store_call (OpSelect t) (fun d => (Data (rows d), d)).

Definition select_single A (t : table) (rows : database -> seq A)
  : H (result A) :=
  store_call (OpSelect t) (fun d => (single (rows d), d)).

(* uuid_generate_v4() *)
Definition next_uuid (w : world) : uuid := head [::] (uuids w).

Definition draw_uuid : H uuid :=
  fun w => (inr (next_uuid w),
            World (db w) (faults w) (behead (uuids w)) (now w) (log w)).

(* NOW() *)
Definition read_clock : H timestamp := fun w => (inr (now w), w).

(* .insert([row]).select(..).single() *)
Definition insert_user (email password : jsstring) : H (result User.t) :=
  let* i := draw_uuid in
  let* t := read_clock in
  let u := User.Mk i email password t in
  store_call (OpInsert Users i)
    (fun d => (Data u,
               Database (rcons (users d) u) (profiles d) (messages d))).

Definition insert_profile (user_id : uuid) (name role : jsstring)
  : H (result Profile.t) :=
  let* i := draw_uuid in
  let* t := read_clock in
  let p := Profile.Mk i user_id name role t in
  store_call (OpInsert Profiles i)
    (fun d => (Data p,
               Database (users d) (rcons (profiles d) p) (messages d))).

Definition insert_message (sender_id receiver_id : uuid) (body : jsstring)
  : H (result Message.t) :=
  let* i := draw_uuid in
  let* t := read_clock in
  let m := Message.Mk i sender_id receiver_id body false false t in
  store_call (OpInsert Messages i)
    (fun d => (Data m,
               Database (users d) (profiles d) (rcons (messages d) m))).

(* .update(fields).eq('id', key).  The row is changed where it stands in
   the list; the store itself promises no place to an updated row, and
   no order among the rows a SELECT returns beyond its ORDER BY. *)
Definition update_messages (key : uuid) (fields : Message.t -> Message.t)
  : H (result unit) :=
  store_call (OpUpdate Messages key)
    (fun d => (Data tt,
               Database (users d) (profiles d)
                 [seq if Message.id m == key then fields m else m
                 | m <- messages d])).

(* .from('users').delete().eq('id', key), with the ON DELETE CASCADE of
   profiles.user_id, messages.sender_id and messages.receiver_id. *)
Definition delete_user (key : uuid) : H (result unit) :=
  store_call (OpDelete Users key)
    (fun d => (Data tt,
               Database
                 [seq u <- users d | User.id u != key]
                 [seq p <- profiles d | Profile.user_id p != key]
                 [seq m <- messages d
                 | (Message.sender_id m != key)
                   && (Message.receiver_id m != key)])).

(* ORDER BY name ASC.  The collation is the store's; it is taken to be
   the code-unit lexicographic order.  Rows of equal name keep their
   table order here; the store promises no order among them. *)
Fixpoint str_le (s t : jsstring) : bool :=
  match s, t with
  | [::], _ => true
  | _ :: _, [::] => false
  | a :: s', b :: t' => (a < b) || ((a == b) && str_le s' t')
  end.

Definition by_name : rel Profile.t :=
  fun p q => str_le (Profile.name p) (Profile.name q).

Definition OWNER : jsstring := str "owner".
Definition HOUSEKEEPER : jsstring := str "housekeeper".

Definition json (st : nat) (ok : bool) (msg : jsstring) (d : payload)
  : response :=
  Response st ok (Some msg) d None.

(* --------------------------------------------------------------------- *)
(* utils/validate.js                                                     *)
(* --------------------------------------------------------------------- *)

Record validation := Validation {
  isValid : bool;
  v_message : option jsstring
}.

Fixpoint validateRequiredFields (data : jsobj) (fields : seq jsstring)
  : completion validation :=
  match fields with
  | [::] => Returns (Validation true None)
  | field :: rest =>
      if ~~ truthy (get data field) then
        Returns (Validation false (Some (field ++ str " is required")))
      else
        match call_trim (get data field) with
        | Throws m => Throws m
        | Returns t =>
            if t == [::] then
              Returns (Validation false (Some (field ++ str " is required")))
            else validateRequiredFields data rest
        end
  end.

(* /^[^\s@]+@[^\s@]+\.[^\s@]+$/ : one '@', no white space, a non-empty
   local part, and a '.' inside the domain with a character on each side. *)
Definition AT : nat := 64.
Definition DOT : nat := 46.

Definition email_char (c : nat) : bool := ~~ is_ws c && (c != AT).

Definition isValidEmail (email : jsstring) : bool :=
  let i := index AT email in
  let local := take i email in
  let domain := drop i.+1 email in
  [&& 0 < i, i < size email, all email_char local, all email_char domain
    & DOT \in take (size domain).-2 (behead domain)].

Definition isValidPassword (password : jsstring) : bool :=
  (password != [::]) && (6 <= size password).

Definition isValidRole (role : jsstring) : bool :=
  (role == OWNER) || (role == HOUSEKEEPER).

(* --------------------------------------------------------------------- *)
(* controllers/messagesController.js                                     *)
(* --------------------------------------------------------------------- *)

Section Conversation.

(* new Date(created_at): the time value of a stored timestamp. *)
Variable Date : timestamp -> nat.

(* (a, b) => new Date(a.created_at) - new Date(b.created_at), read as
   "a does not come after b"; Array.prototype.sort is stable. *)
Definition by_date : rel Message.t :=
  fun a b => Date (Message.created_at a) <= Date (Message.created_at b).

Definition getConversation (authenticatedUserId otherUserId : uuid)
  : world -> response * world :=
  handle (str "Error fetching conversation") (
    let* sent :=
      select_rows Messages (fun d =>
        [seq m <- messages d
        | [&& Message.sender_id m == authenticatedUserId,
              Message.receiver_id m == otherUserId
            & Message.deleted_for_sender m == false]]) in
    let* sentMessages := orThrow sent in
    let* received :=
      select_rows Messages (fun d =>
        [seq m <- messages d
        | [&& Message.sender_id m == otherUserId,
              Message.receiver_id m == authenticatedUserId
            & Message.deleted_for_receiver m == false]]) in
    let* receivedMessages := orThrow received in
    let messages := sort by_date (sentMessages ++ receivedMessages) in
    pure (Response 200 true None (MessageList messages) None)).

End Conversation.

(* conversedUserIds.add(x) on a Set kept in insertion order *)
Definition set_add (s : seq uuid) (x : uuid) : seq uuid :=
  if x \in s then s else rcons s x.

(* messageData.forEach(msg => ..) filling conversedUserIds *)
Definition conversedUserIds (authenticatedUserId : uuid)
  (messageData : seq Message.t) : seq uuid :=
  foldl (fun ids msg =>
           if Message.sender_id msg == authenticatedUserId then
             set_add ids (Message.receiver_id msg)
           else if Message.receiver_id msg == authenticatedUserId then
             set_add ids (Message.sender_id msg)
           else ids)
        [::] messageData.

Definition getUsers (authenticatedUserId : uuid)
  : world -> response * world :=
  handle (str "Error fetching users") (
    let* current :=
      select_single Profiles (fun d =>
        [seq p <- profiles d | Profile.user_id p == authenticatedUserId]) in
    match current with
    | Error _ => throw (str "Could not find user profile")
    | Data currentProfile =>
        let currentUserRole := Profile.role currentProfile in
        let* profiles :=
          if currentUserRole == HOUSEKEEPER then
            let* owners :=
              select_rows Profiles (fun d =>
                sort by_name
                  [seq p <- profiles d
                  | (Profile.role p == OWNER)
                    && (Profile.user_id p != authenticatedUserId)]) in
            orThrow owners
          else if currentUserRole == OWNER then
            let* owners :=
              select_rows Profiles (fun d =>
                sort by_name
                  [seq p <- profiles d
                  | (Profile.role p == OWNER)
                    && (Profile.user_id p != authenticatedUserId)]) in
            let* allOwners := orThrow owners in
            let* msgs :=
              select_rows Messages (fun d =>
                [seq m <- messages d
                | (Message.sender_id m == authenticatedUserId)
                  || (Message.receiver_id m == authenticatedUserId)]) in
            let* messageData := orThrow msgs in
            let ids := conversedUserIds authenticatedUserId messageData in
            let* conversedHousekeepers :=
              if 0 < size ids then
                let* hks :=
                  select_rows Profiles (fun d =>
                    sort by_name
                      [seq p <- profiles d
                      | (Profile.role p == HOUSEKEEPER)
                        && (Profile.user_id p \in ids)]) in
                orThrow hks
              else pure [::] in
            pure (allOwners ++ conversedHousekeepers)
          else pure [::] in
        pure (Response 200 true None (ProfileList profiles) None)
    end).

Definition sendMessage (sender_id : uuid) (body : jsobj)
  : world -> response * world :=
  handle (str "Error sending message") (
    let receiver_id := get body (str "receiver_id") in
    let message := get body (str "message") in
    let* validation :=
      eval (validateRequiredFields body
              [:: str "receiver_id"; str "message"]) in
    if ~~ isValid validation then
      respond (Response 400 false (v_message validation) NoData None)
    else
    let* trimmed := eval (call_trim message) in
    if ~~ truthy (JStr trimmed) then
      respond (json 400 false (str "Message cannot be empty") NoData)
    else
    let* receiverExists :=
      select_single Users (fun d =>
        [seq u <- users d | strict_eq (User.id u) receiver_id]) in
    if ~~ is_data receiverExists then
      respond (json 404 false (str "Receiver not found") NoData)
    else
    if strict_eq sender_id receiver_id then
      respond (json 400 false (str "Cannot send message to yourself") NoData)
    else
    let* sender :=
      select_single Profiles (fun d =>
        [seq p <- profiles d | Profile.user_id p == sender_id]) in
    match sender with
    | Error _ =>
        respond (json 400 false (str "Sender profile not found") NoData)
    | Data senderProfile =>
        let senderRole := Profile.role senderProfile in
        let* _ :=
          if senderRole == OWNER then
            let* receiver :=
              select_single Profiles (fun d =>
                [seq p <- profiles d
                | strict_eq (Profile.user_id p) receiver_id]) in
            match receiver with
            | Error _ =>
                respond (json 404 false (str "Receiver not found") NoData)
            | Data receiverProfile =>
                if Profile.role receiverProfile == HOUSEKEEPER then
                  let* sent :=
                    select_rows Messages (fun d =>
                      take 1
                        [seq m <- messages d
                        | (Message.sender_id m == sender_id)
                          && strict_eq (Message.receiver_id m) receiver_id])
                  in
                  let* received :=
                    select_rows Messages (fun d =>
                      take 1
                        [seq m <- messages d
                        | strict_eq (Message.sender_id m) receiver_id
                          && (Message.receiver_id m == sender_id)]) in
                  match sent, received with
                  | Error e, _ => throw (emsg e)
                  | Data _, Error e => throw (emsg e)
                  | Data sentMessages, Data receivedMessages =>
                      let hasConversation :=
                        (0 < size sentMessages)
                        || (0 < size receivedMessages) in
                      if ~~ hasConversation then
                        respond
                          (json 403 false
                             (str "You can only message housekeepers who have messaged you first")
                             NoData)
                      else pure tt
                  end
                else pure tt
            end
          else pure tt in
        let* inserted :=
          insert_message sender_id (string_of receiver_id) trimmed in
        let* newMessage := orThrow inserted in
        pure (json 201 true (str "Message sent successfully")
                (OneMessage newMessage))
    end).

(* updateData of the two delete modes *)
Definition mark_both (m : Message.t) : Message.t :=
  Message.Mk (Message.id m) (Message.sender_id m) (Message.receiver_id m)
    (Message.message m) true true (Message.created_at m).

Definition mark_sender (m : Message.t) : Message.t :=
  Message.Mk (Message.id m) (Message.sender_id m) (Message.receiver_id m)
    (Message.message m) true (Message.deleted_for_receiver m)
    (Message.created_at m).

Definition mark_receiver (m : Message.t) : Message.t :=
  Message.Mk (Message.id m) (Message.sender_id m) (Message.receiver_id m)
    (Message.message m) (Message.deleted_for_sender m) true
    (Message.created_at m).

Definition deleteMessage (authenticatedUserId messageId : uuid)
  (body : jsobj) : world -> response * world :=
  handle (str "Error deleting message") (
    let deleteForEveryone := get body (str "deleteForEveryone") in
    let* fetched :=
      select_single Messages (fun d =>
        [seq m <- messages d | Message.id m == messageId]) in
    match fetched with
    | Error _ => respond (json 404 false (str "Message not found") NoData)
    | Data message =>
        if (Message.sender_id message != authenticatedUserId)
           && (Message.receiver_id message != authenticatedUserId) then
          respond
            (json 403 false (str "Unauthorized to delete this message")
               NoData)
        else
        let* _ :=
          if strict_true deleteForEveryone then
            if Message.sender_id message != authenticatedUserId then
              respond
                (json 403 false
                   (str "Only the sender can delete messages for everyone")
                   NoData)
            else
            let* updated := update_messages messageId mark_both in
            orThrow updated
          else
            let updateData :=
              if Message.sender_id message == authenticatedUserId
              then mark_sender else mark_receiver in
            let* updated := update_messages messageId updateData in
            orThrow updated in
        pure (json 200 true
                (if truthy deleteForEveryone
                 then str "Message deleted for everyone"
                 else str "Message deleted for you")
                NoData)
    end).

(* --------------------------------------------------------------------- *)
(* controllers/authController.js: signup                                 *)
(* --------------------------------------------------------------------- *)

Section Signup.

(* bcrypt, jsonwebtoken and String.prototype.toLowerCase are taken as
   given.  generateToken is jwt.sign at the instant of the request, as a
   function of the payload (userId, email, role): the token also holds
   the issue and expiry times, so two requests need not share it. *)
Variable hashPassword : jsstring -> jsstring.
Variable generateToken : uuid -> jsstring -> jsstring -> jsstring.
Variable toLowerCase : jsstring -> jsstring.

Definition signup (body : jsobj) : world -> response * world :=
  handle (str "Error registering user") (
    let email := get body (str "email") in
    let password := get body (str "password") in
    let name := get body (str "name") in
    let role := get body (str "role") in
    let* validation :=
      eval (validateRequiredFields body
              [:: str "email"; str "password"; str "name"; str "role"]) in
    if ~~ isValid validation then
      respond (Response 400 false (v_message validation) NoData None)
    else
    if ~~ isValidEmail (string_of email) then
      respond (json 400 false (str "Invalid email format") NoData)
    else
    if ~~ isValidPassword (string_of password) then
      respond
        (json 400 false (str "Password must be at least 6 characters long")
           NoData)
    else
    if ~~ isValidRole (string_of role) then
      respond
        (json 400 false
           (str "Role must be either 'owner' or 'housekeeper'") NoData)
    else
    let* existing :=
      select_single Users (fun d =>
        [seq u <- users d
        | User.email u == toLowerCase (string_of email)]) in
    let* existingUser :=
      match existing with
      | Error checkError =>
          if code checkError != str "PGRST116" then throw (emsg checkError)
          else pure false
      | Data _ => pure true
      end in
    if existingUser then
      respond
        (json 409 false (str "User with this email already exists") NoData)
    else
    let hashedPassword := hashPassword (string_of password) in
    let* created :=
      insert_user (toLowerCase (string_of email)) hashedPassword in
    let* user := orThrow created in
    let* profiled :=
      insert_profile (User.id user) (trim (string_of name))
        (string_of role) in
    match profiled with
    | Error profileError =>
        let* _ := delete_user (User.id user) in
        throw (emsg profileError)
    | Data profile =>
        let token :=
          generateToken (User.id user) (User.email user)
            (Profile.role profile) in
        pure (json 201 true (str "User registered successfully")
                (SessionData
                   (Session (User.id user) (User.email user)
                      (Profile.name profile) (Profile.role profile)
                      (User.created_at user) token)))
    end).

End Signup.

(* --------------------------------------------------------------------- *)
(* controllers/authController.js: login                                  *)
(* --------------------------------------------------------------------- *)

Section Login.

(* bcrypt.compare, jsonwebtoken and String.prototype.toLowerCase are
   taken as given; generateToken is jwt.sign at the instant of this
   request. *)
Variable comparePassword : jsstring -> jsstring -> bool.
Variable generateToken : uuid -> jsstring -> jsstring -> jsstring.
Variable toLowerCase : jsstring -> jsstring.

Definition login (body : jsobj) : world -> response * world :=
  handle (str "Error logging in") (
    let email := get body (str "email") in
    let password := get body (str "password") in
    let* validation :=
      eval (validateRequiredFields body [:: str "email"; str "password"]) in
    if ~~ isValid validation then
      respond (Response 400 false (v_message validation) NoData None)
    else
    if ~~ isValidEmail (string_of email) then
      respond (json 400 false (str "Invalid email format") NoData)
    else
    let* found :=
      select_single Users (fun d =>
        [seq u <- users d
        | User.email u == toLowerCase (string_of email)]) in
    match found with
    | Error _ =>
        respond (json 401 false (str "Invalid email or password") NoData)
    | Data user =>
        let isPasswordValid :=
          comparePassword (string_of password) (User.password user) in
        if ~~ isPasswordValid then
          respond (json 401 false (str "Invalid email or password") NoData)
        else
        let* profiled :=
          select_single Profiles (fun d =>
            [seq p <- profiles d | Profile.user_id p == User.id user]) in
        match profiled with
        | Error _ =>
            respond (json 404 false (str "User profile not found") NoData)
        | Data profile =>
            let token :=
              generateToken (User.id user) (User.email user)
                (Profile.role profile) in
            pure (json 200 true (str "Login successful")
                    (SessionData
                       (Session (User.id user) (User.email user)
                          (Profile.name profile) (Profile.role profile)
                          (User.created_at user) token)))
        end
    end).

End Login.

(* --------------------------------------------------------------------- *)
(* controllers/messagesController.js: getMessages                        *)
(* --------------------------------------------------------------------- *)

(* .order('created_at', { ascending: true }), on the stored timestamps *)
Definition by_created_at : rel Message.t :=
  fun a b => Message.created_at a <= Message.created_at b.

Definition getMessages (authenticatedUserId userId : uuid)
  : world -> response * world :=
  handle (str "Error fetching messages") (
    if userId != authenticatedUserId then
      respond
        (json 403 false (str "Unauthorized to view these messages") NoData)
    else
    let* fetched :=
      select_rows Messages (fun d =>
        sort by_created_at
          [seq m <- messages d
          | (Message.sender_id m == userId)
            || (Message.receiver_id m == userId)]) in
    let* messages := orThrow fetched in
    pure (Response 200 true None (MessageList messages) None)).

(* --------------------------------------------------------------------- *)
(* The earlier messages controller (controllers/messagesController.js),  *)
(* where it differs: no delete flags, no roles                           *)
(* --------------------------------------------------------------------- *)

Module Legacy.

Section Conversation.

Variable Date : timestamp -> nat.

Definition getConversation (authenticatedUserId otherUserId : uuid)
  : world -> response * world :=
  handle (str "Error fetching conversation") (
    let* sent :=
      select_rows Messages (fun d =>
        [seq m <- messages d
        | (Message.sender_id m == authenticatedUserId)
          && (Message.receiver_id m == otherUserId)]) in
    let* sentMessages := orThrow sent in
    let* received :=
      select_rows Messages (fun d =>
        [seq m <- messages d
        | (Message.sender_id m == otherUserId)
          && (Message.receiver_id m == authenticatedUserId)]) in
    let* receivedMessages := orThrow received in
    let messages := sort (by_date Date) (sentMessages ++ receivedMessages) in
    pure (Response 200 true None (MessageList messages) None)).

End Conversation.

Definition getUsers (authenticatedUserId : uuid)
  : world -> response * world :=
  handle (str "Error fetching users") (
    let* fetched :=
      select_rows Profiles (fun d =>
        sort by_name
          [seq p <- profiles d | Profile.user_id p != authenticatedUserId]) in
    let* profiles := orThrow fetched in
    pure (Response 200 true None (ProfileList profiles) None)).

Definition sendMessage (sender_id : uuid) (body : jsobj)
  : world -> response * world :=
  handle (str "Error sending message") (
    let receiver_id := get body (str "receiver_id") in
    let message := get body (str "message") in
    let* validation :=
      eval (validateRequiredFields body
              [:: str "receiver_id"; str "message"]) in
    if ~~ isValid validation then
      respond (Response 400 false (v_message validation) NoData None)
    else
    let* trimmed := eval (call_trim message) in
    if ~~ truthy (JStr trimmed) then
      respond (json 400 false (str "Message cannot be empty") NoData)
    else
    let* receiverExists :=
      select_single Users (fun d =>
        [seq u <- users d | strict_eq (User.id u) receiver_id]) in
    if ~~ is_data receiverExists then
      respond (json 404 false (str "Receiver not found") NoData)
    else
    if strict_eq sender_id receiver_id then
      respond (json 400 false (str "Cannot send message to yourself") NoData)
    else
    let* inserted :=
      insert_message sender_id (string_of receiver_id) trimmed in
    let* newMessage := orThrow inserted in
    pure (json 201 true (str "Message sent successfully")
            (OneMessage newMessage))).

End Legacy.

(* --------------------------------------------------------------------- *)
(* The specification's reading of the operations, for comparison         *)
(* --------------------------------------------------------------------- *)

(* The two halves of a conversation view: what the requester sent and
   has not deleted, what the requester received and has not deleted. *)
Definition sent_visible (userId otherId : uuid) (m : Message.t) : bool :=
  [&& Message.sender_id m == userId, Message.receiver_id m == otherId
    & ~~ Message.deleted_for_sender m].

Definition received_visible (userId otherId : uuid) (m : Message.t) : bool :=
  [&& Message.sender_id m == otherId, Message.receiver_id m == userId
    & ~~ Message.deleted_for_receiver m].

(* fetchConversation as the specification words it: the union of the two
   halves, ascending by createdAt, ties in creation order.  The table is
   in creation order and the sort is stable. *)
Definition fetchConversation_spec (Date : timestamp -> nat)
  (userId otherId : uuid) (d : database) : seq Message.t :=
  sort (by_date Date)
    [seq m <- messages d
    | sent_visible userId otherId m || received_visible userId otherId m].

(* The conversation-existence test: a message row between the two users,
   in either direction, whatever its delete flags. *)
Definition conversationExists (d : database) (a b : uuid) : bool :=
  has (fun m =>
         ((Message.sender_id m == a) && (Message.receiver_id m == b))
         || ((Message.sender_id m == b) && (Message.receiver_id m == a)))
      (messages d).

(* Role as the specification has it: a closed two-value category. *)
Inductive role := Owner | Housekeeper.

Definition role_name (r : role) : jsstring :=
  match r with
  | Owner => OWNER
  | Housekeeper => HOUSEKEEPER
  end.

(* The conversation gate as a predicate over
   (senderRole, receiverRole, priorConversationExists). *)
Definition canSend (senderRole receiverRole : role)
  (priorConversationExists : bool) : bool :=
  match senderRole, receiverRole with
  | Owner, Owner => true
  | Owner, Housekeeper => priorConversationExists
  | Housekeeper, _ => true
  end.

(* A select that was answered. *)
Definition select_ok (t : table) : event := Event (OpSelect t) false.

(* An update that was answered. *)
Definition update_ok (key : uuid) : event :=
  Event (OpUpdate Messages key) false.

(* The side of a message a requester's own delete flag sits on: the
   sender's flag for the sender, the receiver's flag otherwise. *)
Definition deleted_for (r : uuid) (m : Message.t) : bool :=
  if Message.sender_id m == r then Message.deleted_for_sender m
  else Message.deleted_for_receiver m.

(* The store calls a request made: what it appended to the log. *)
Definition trace (w w' : world) : seq event :=
  drop (size (log w)) (log w').

(* The creation of a Profile row that the store refused. *)
Definition profile_insert_failed (e : event) : bool :=
  if op e is OpInsert Profiles _ then failed e else false.

(* --------------------------------------------------------------------- *)
(* Runs of requests and the predicates their invariants are stated with  *)
(* --------------------------------------------------------------------- *)

(* y is the row x with its delete flags kept or raised, nothing else
   changed. *)
Definition flagged_from (x y : Message.t) : bool :=
  [&& Message.id y == Message.id x,
      Message.sender_id y == Message.sender_id x,
      Message.receiver_id y == Message.receiver_id x,
      Message.message y == Message.message x,
      Message.created_at y == Message.created_at x,
      Message.deleted_for_sender x ==> Message.deleted_for_sender y
    & Message.deleted_for_receiver x ==> Message.deleted_for_receiver y].

(* A body as sendMessage stores it: not empty, no white space at either
   end. *)
Definition trimmed (s : jsstring) : bool :=
  [&& s != [::], ~~ is_ws (head 0 s) & ~~ is_ws (last 0 s)].

Definition well_formed (m : Message.t) : bool :=
  trimmed (Message.message m).

(* The two writing requests of the messages controller. *)
Inductive request :=
  | Send of uuid & jsobj
  | Delete of uuid & uuid & jsobj.

Definition serve (w : world) (q : request) : world :=
  match q with
  | Send sender_id body => (sendMessage sender_id body w).2
  | Delete authenticatedUserId messageId body =>
      (deleteMessage authenticatedUserId messageId body w).2
  end.

(* Requests served one after the other. *)
Definition serve_all (w : world) (qs : seq request) : world :=
  foldl serve w qs.

(* How validateRequiredFields sees a value: filled in (a string with a
   character that is not white space), left out (falsy, or a string of
   white space only), or neither (a truthy value that is not a string). *)
Definition filled_in (v : jsval) : bool :=
  if v is JStr s then ~~ all is_ws s else false.

Definition left_out (v : jsval) : bool :=
  ~~ truthy v || (if v is JStr s then all is_ws s else false).

(* A registration request whose four fields pass every validator of
   signup. *)
Definition acceptable (body : jsobj) (e p n r : jsstring) : Prop :=
  [/\ get body (str "email") = JStr e, get body (str "password") = JStr p,
      get body (str "name") = JStr n & get body (str "role") = JStr r]
  /\ [/\ isValidEmail e, isValidPassword p, trim p != [::], trim n != [::]
       & isValidRole r].

(* --------------------------------------------------------------------- *)
(* A small store and some requests, for examples                         *)
(* --------------------------------------------------------------------- *)

Module Sample.

Definition ada : uuid := str "owner-ada".
Definition bo : uuid := str "keeper-bo".
Definition cy : uuid := str "owner-cy".

Definition people : seq User.t :=
  [:: User.Mk ada (str "ada@x.io") (str "pw-ada") 1;
      User.Mk bo (str "bo@x.io") (str "pw-bo") 2;
      User.Mk cy (str "cy@x.io") (str "pw-cy") 3].

Definition cards : seq Profile.t :=
  [:: Profile.Mk (str "p1") ada (str "Ada") OWNER 1;
      Profile.Mk (str "p2") bo (str "Bo") HOUSEKEEPER 2;
      Profile.Mk (str "p3") cy (str "Cy") OWNER 3].

(* bo wrote to ada. *)
Definition hi : Message.t :=
  Message.Mk (str "m1") bo ada (str "hi") false false 4.

Definition quiet : database := Database people cards [::].
Definition store : database := Database people cards [:: hi].

Definition world_of (d : database) : world :=
  World d [::] [:: str "n1"; str "n2"] 9 [::].

Definition send_body (receiver text : jsstring) : jsobj :=
  [:: (str "receiver_id", JStr receiver); (str "message", JStr text)].

Definition signup_body (email password name role : jsstring) : jsobj :=
  [:: (str "email", JStr email); (str "password", JStr password);
      (str "name", JStr name); (str "role", JStr role)].

(* toLowerCase on the ASCII letters, bcrypt replaced by the identity. *)
Definition lower (s : jsstring) : jsstring :=
  [seq if (65 <= c) && (c <= 90) then c + 32 else c | c <- s].

Definition hash (p : jsstring) : jsstring := p.
Definition compare (p h : jsstring) : bool := p == h.
Definition token (i e r : jsstring) : jsstring := i ++ e ++ r.

(* jwt.sign some time later: the same payload under another stamp. *)
Definition token_later (i e r : jsstring) : jsstring :=
  i ++ e ++ r ++ str "+1".

(* Two people under ids in the store's written form, and an id in that
   form that names nobody. *)
Definition ann : uuid := str "11111111-1111-4111-8111-111111111111".
Definition ben : uuid := str "22222222-2222-4222-8222-222222222222".
Definition nobody : uuid := str "33333333-3333-4333-8333-333333333333".

Definition register : database :=
  Database
    [:: User.Mk ann (str "ann@x.io") (str "pw-ann") 1;
        User.Mk ben (str "ben@x.io") (str "pw-ben") 2]
    [:: Profile.Mk (str "q1") ann (str "Ann") OWNER 1;
        Profile.Mk (str "q2") ben (str "Ben") OWNER 2]
    [::].

End Sample.

(* ===================================================================== *)
(* Properties                                                            *)
(* ===================================================================== *)

(* --------------------------------------------------------------------- *)
(* Strings and the validators                                            *)
(* --------------------------------------------------------------------- *)

Lemma trimStart_nil (s : jsstring) : (trimStart s == [::]) = all is_ws s.
Proof.
rewrite /trimStart -size_eq0 size_drop subn_eq0 leqNgt -has_find.
by rewrite has_predC negbK.
Qed.

Lemma trimStart_sub (s : jsstring) : all is_ws s = false ->
  all is_ws (trimStart s) = false.
Proof.
move=> Hs; rewrite /trimStart.
have: has (predC is_ws) s by rewrite has_predC Hs.
move=> Hh; move: (Hh); rewrite has_find => Hlt.
rewrite (drop_nth 0 Hlt) /=.
by move: (nth_find 0 Hh) => /= /negbTE ->.
Qed.

(* s.trim() is empty exactly when s is empty or all white space. *)
Lemma trim_nil (s : jsstring) : (trim s == [::]) = all is_ws s.
Proof.
rewrite /trim /trimEnd -size_eq0 size_rev size_eq0 trimStart_nil all_rev.
case Hs: (all is_ws s).
  by have := trimStart_nil s; rewrite Hs => /eqP ->.
exact: trimStart_sub.
Qed.

(* A field that passes the validator is a string with a non-empty trim. *)
Lemma validate_field (data : jsobj) (fields : seq jsstring) (v : validation)
  (f : jsstring) :
  validateRequiredFields data fields = Returns v -> isValid v ->
  f \in fields ->
  exists2 s, get data f = JStr s & trim s != [::].
Proof.
elim: fields => [|g fields IH] //=.
case Ht: (truthy (get data g)) => /=; first last.
  by case=> <-.
case Hg: (get data g) Ht => [| |b|n|s|] //= Ht.
case: ifP => [_ [<-] //|Hne Hv Hval].
rewrite in_cons => /orP [/eqP ->|Hin]; last exact: IH.
by exists s => //; rewrite Hne.
Qed.

(* A rejection names one of the required fields. *)
Lemma validate_message (data : jsobj) (fields : seq jsstring)
  (v : validation) :
  validateRequiredFields data fields = Returns v -> ~~ isValid v ->
  exists2 f, f \in fields & v_message v = Some (f ++ str " is required").
Proof.
elim: fields => [|g fields IH] /=; first by case=> <-.
have Hg : exists2 f, f \in g :: fields
            & Some (g ++ str " is required") = Some (f ++ str " is required").
  by exists g => //; rewrite mem_head.
case Ht: (truthy (get data g)) => /=; first last.
  by case=> <- _.
case: (call_trim (get data g)) => [t|m] //.
case: ifP => [_ [<-] _ //|_ Hv Hval].
have [f Hin Hm] := IH Hv Hval.
by exists f => //; rewrite in_cons Hin orbT.
Qed.

Example trim_example : trim (str "  a b  ") = str "a b".
Proof. by vm_compute. Qed.

Example isValidEmail_examples :
  [seq isValidEmail (str e)
  | e <- [:: "a@b.co"; "a@b"; "a@b."; "a@.b"; "a b@c.d"; "a@@b.c";
             "a@b.c.d"; "@b.co"]%string]
  = [:: true; false; false; false; false; false; true; false].
Proof. by vm_compute. Qed.

(* A store call never leaves the handler body: failures come back in the
   error half of its answer. *)
Lemma store_call_returns A (o : store_op)
  (run : database -> result A * database) (w : world) :
  exists r w', store_call o run w = (inr r, w').
Proof.
rewrite /store_call; case: (faults w) => [|[e|] fs].
- by case: (run (db w)) => r d; eexists; eexists.
- by eexists; eexists.
- by case: (run (db w)) => r d; eexists; eexists.
Qed.

Arguments str : simpl never.

(* --------------------------------------------------------------------- *)
(* sendMessage: the emptiness check                                      *)
(* --------------------------------------------------------------------- *)

Ltac store_step :=
  match goal with
  | |- context [store_call ?o ?r ?w] =>
      let x := fresh "r" in
      let w' := fresh "w" in
      case: (store_call_returns o r w) => x [w' ->] /=
  end.

(** C10: for a send request whose message is a string, sendMessage never
    answers 'Message cannot be empty': a string that passes
    validateRequiredFields has a non-empty trim, and an empty or
    all-white-space message (with a valid receiver_id) is answered
    'message is required' by the validator, before any store call. *)
Theorem sendMessage_empty_check_unreachable
  (sender_id : uuid) (body : jsobj) (w : world) (s : jsstring) :
  get body (str "message") = JStr s ->
  [/\ message (sendMessage sender_id body w).1
        <> Some (str "Message cannot be empty"),
      forall v,
        validateRequiredFields body [:: str "receiver_id"; str "message"]
          = Returns v ->
        isValid v -> trim s != [::]
    & all is_ws s ->
      forall v,
        validateRequiredFields body [:: str "receiver_id"] = Returns v ->
        isValid v ->
        sendMessage sender_id body w
          = (Response 400 false (Some (str "message is required"))
               NoData None, w)].
Proof.
move=> Hm.
have Hstr : forall v,
    validateRequiredFields body [:: str "receiver_id"; str "message"]
      = Returns v ->
    isValid v -> trim s != [::].
  move=> v Hv Hval.
  have [|s' Hs' Hne] := validate_field (f := str "message") Hv Hval.
    by rewrite !inE eqxx orbT.
  by move: Hs'; rewrite Hm => -[->].
split=> //.
- rewrite /sendMessage /handle /bind /eval.
  case Hv: (validateRequiredFields _ _) => [v|m] //=.
  case Hval: (isValid v) => /=.
    rewrite Hm /= (negbTE (Hstr v Hv Hval)) /=.
    rewrite /select_single /select_rows /insert_message /draw_uuid
            /read_clock /bind /orThrow /pure /throw /respond.
    by repeat first
      [ store_step
      | match goal with
        | |- context [if ?b then _ else _] => case: b => /=
        | |- context [match ?r with Data _ => _ | Error _ => _ end] =>
            case: r => [?|?] /=
        end ].
  have [f Hf ->] := validate_message Hv (negbT Hval).
  by move: Hf; rewrite !inE => /orP [] /eqP ->.
- move=> Hws v; rewrite /sendMessage /handle /bind /eval /=.
  case: (truthy (get body (str "receiver_id"))) => /=; last by case=> <-.
  case: (call_trim (get body (str "receiver_id"))) => [t|m] //=.
  case: ifP => [_ [<-] //|_ _ _].
  rewrite Hm /=; case: eqP => [-> //|_] /=.
  by rewrite /call_trim trim_nil Hws.
Qed.

Lemma sendMessage_empty_check_unreachable_witness :
  let body := [:: (str "receiver_id", JStr (str "u2"));
                  (str "message", JStr (str "  "))] in
  let w := World (Database [::] [::] [::]) [::] [::] 0 [::] in
  message (sendMessage (str "u1") body w).1
    <> Some (str "Message cannot be empty")
  /\ sendMessage (str "u1") body w
      = (Response 400 false (Some (str "message is required")) NoData None,
         w).
Proof.
move=> body w.
have [H1 _ H3] :=
  @sendMessage_empty_check_unreachable (str "u1") body w (str "  ")
    (erefl _).
split; first exact: H1.
exact: (H3 (erefl _) (Validation true None) (erefl _) (erefl _)).
Defined.

(* --------------------------------------------------------------------- *)
(* getConversation                                                       *)
(* --------------------------------------------------------------------- *)

Section ConversationFacts.

Variable Date : timestamp -> nat.

Lemma by_date_total : total (by_date Date).
Proof. by move=> a b; exact: leq_total. Qed.

Lemma by_date_trans : transitive (by_date Date).
Proof. by move=> b a c; exact: leq_trans. Qed.

(* Messages of one instant are kept in the order they had. *)
Lemma sort_by_date_instant (k : nat) (s : seq Message.t) :
  [seq m <- sort (by_date Date) s | Date (Message.created_at m) == k]
    = [seq m <- s | Date (Message.created_at m) == k].
Proof.
rewrite (filter_sort by_date_total by_date_trans).
apply: (sorted_sort by_date_trans).
set f := [seq _ <- s | _].
have Hall : all (fun m => Date (Message.created_at m) == k) f.
  exact: filter_all.
have: forall m, m \in f -> Date (Message.created_at m) = k.
  by move=> m Hin; exact/eqP/(allP Hall).
clear Hall; elim: f => [|a f IH] //= Hk.
rewrite (path_sortedE by_date_trans).
have -> : sorted (by_date Date) f.
  by apply: IH => m Hin; apply: Hk; rewrite in_cons Hin orbT.
rewrite andbT.
apply/allP => b Hb; rewrite /by_date.
by rewrite (Hk a (mem_head _ _)) (Hk b) ?leqnn // in_cons Hb orbT.
Qed.

End ConversationFacts.

(* One run of getConversation when the store does not fail. *)
Lemma getConversation_run (Date : timestamp -> nat) (userId otherId : uuid)
  (d : database) (us : seq uuid) (t : timestamp) (l : seq event) :
  getConversation Date userId otherId (World d [::] us t l)
    = (Response 200 true None
         (MessageList
            (sort (by_date Date)
               ([seq m <- messages d | sent_visible userId otherId m]
                ++ [seq m <- messages d
                   | received_visible userId otherId m])))
         None,
       World d [::] us t
         (l ++ [:: Event (OpSelect Messages) false;
                   Event (OpSelect Messages) false])).
Proof.
rewrite /getConversation /handle /bind /select_rows /store_call /=.
rewrite -!cats1 -catA /=.
have -> : filter (fun m => [&& Message.sender_id m == userId,
                    Message.receiver_id m == otherId
                  & Message.deleted_for_sender m == false]) (messages d)
          = [seq m <- messages d | sent_visible userId otherId m].
  by apply: eq_filter => m; rewrite /sent_visible eqbF_neg.
have -> // : filter (fun m => [&& Message.sender_id m == otherId,
                    Message.receiver_id m == userId
                  & Message.deleted_for_receiver m == false]) (messages d)
          = [seq m <- messages d | received_visible userId otherId m].
by apply: eq_filter => m; rewrite /received_visible eqbF_neg.
Qed.

(** C3 (as amended): without store failures getConversation answers 200
    with the messages the requester sent to the other user and has not
    deleted together with those received from the other user and not
    deleted, ascending by the instant the comparator reads, the Date of
    created_at, whatever the reading Date is (it may give one instant to
    several created_at); messages of one instant come with the sent ones
    first and the received ones after, each group in the order in which
    the store returned it (here, the order of the table).  The store is
    left as it was. *)
Theorem getConversation_stable_merge (Date : timestamp -> nat)
  (userId otherId : uuid) (d : database) (us : seq uuid) (t : timestamp)
  (l : seq event) :
  let sent := [seq m <- messages d | sent_visible userId otherId m] in
  let received := [seq m <- messages d | received_visible userId otherId m] in
  exists L : seq Message.t,
    [/\ getConversation Date userId otherId (World d [::] us t l)
          = (Response 200 true None (MessageList L) None,
             World d [::] us t
               (l ++ [:: Event (OpSelect Messages) false;
                         Event (OpSelect Messages) false])),
        perm_eq L (sent ++ received),
        L =i [seq m <- messages d
             | sent_visible userId otherId m
               || received_visible userId otherId m],
        sorted (by_date Date) L
      & forall k,
          [seq m <- L | Date (Message.created_at m) == k]
            = [seq m <- sent | Date (Message.created_at m) == k]
              ++ [seq m <- received | Date (Message.created_at m) == k]].
Proof.
move=> sent received.
exists (sort (by_date Date) (sent ++ received)); split.
- exact: getConversation_run.
- by rewrite perm_sort.
- by move=> m; rewrite mem_sort mem_cat !mem_filter -andb_orl.
- exact: (sort_sorted (by_date_total Date)).
- by move=> k; rewrite sort_by_date_instant filter_cat.
Qed.

(* Two messages of the same instant: the older one received, the newer one
   sent.  getConversation lists the sent one first; creation order would
   list the received one first. *)
Lemma getConversation_ties_counterexample :
  let A := str "user-a" in
  let B := str "user-b" in
  let m1 := Message.Mk (str "m1") B A (str "hi") false false 5 in
  let m2 := Message.Mk (str "m2") A B (str "hello") false false 5 in
  let d := Database [::] [::] [:: m1; m2] in
  let w := World d [::] [::] 9 [::] in
  [/\ data (getConversation id A B w).1 = MessageList [:: m2; m1],
      fetchConversation_spec id A B d = [:: m1; m2]
    & data (getConversation id A B w).1
        <> MessageList (fetchConversation_spec id A B d)].
Proof.
move=> A B m1 m2 d w.
have E1 : data (getConversation id A B w).1 = MessageList [:: m2; m1].
  by vm_compute.
have E2 : fetchConversation_spec id A B d = [:: m1; m2] by vm_compute.
by split; [exact: E1 | exact: E2 | rewrite E1 E2].
Qed.

(* A Date that reads created_at to the millisecond while the store keeps
   microseconds: two messages of one millisecond, the sent one created
   later.  The answer lists the sent one first: it is ascending by the
   instant read, not by created_at. *)
Example getConversation_instant_example :
  let A := str "user-a" in
  let B := str "user-b" in
  let m1 := Message.Mk (str "m1") B A (str "hi") false false 1100 in
  let m2 := Message.Mk (str "m2") A B (str "hello") false false 1900 in
  let d := Database [::] [::] [:: m1; m2] in
  let ms := fun t : timestamp => Nat.div t 1000 in
  let L := [:: m2; m1] in
  [/\ data (getConversation ms A B (World d [::] [::] 9 [::])).1
        = MessageList L,
      sorted (by_date ms) L
    & sorted by_created_at L = false].
Proof. by split; vm_compute. Qed.

(* --------------------------------------------------------------------- *)
(* getUsers                                                              *)
(* --------------------------------------------------------------------- *)

Lemma str_le_total : total str_le.
Proof.
elim=> [|a s IH] [|b t] //=.
case: (ltngtP a b) => //= _; exact: IH.
Qed.

Lemma str_le_trans : transitive str_le.
Proof.
move=> t s u; elim: s t u => [|a s IH] [|b t] [|c u] //=.
case/orP=> [Hab|/andP [/eqP -> Hst]].
  case/orP=> [Hbc|/andP [/eqP <- _]]; last by rewrite Hab.
  by rewrite (ltn_trans Hab Hbc).
case/orP=> [-> //|/andP [/eqP -> Htu]].
by rewrite eqxx (IH _ _ Hst Htu) orbT.
Qed.

Lemma by_name_total : total by_name.
Proof. by move=> p q; exact: str_le_total. Qed.

Lemma by_name_trans : transitive by_name.
Proof. by move=> q p r; exact: str_le_trans. Qed.

Lemma OWNER_not_HOUSEKEEPER : (OWNER == HOUSEKEEPER) = false.
Proof. by vm_compute. Qed.

Lemma mem_set_add (s : seq uuid) (x v : uuid) :
  (v \in set_add s x) = (v == x) || (v \in s).
Proof.
rewrite /set_add; case: ifP => Hx; last by rewrite mem_rcons in_cons.
by case: eqP => [->|] //; rewrite Hx.
Qed.

(* The Set filled by getUsers holds exactly the other ends of the
   requester's messages. *)
Lemma mem_conversedUserIds (u v : uuid) (msgs : seq Message.t) :
  (v \in conversedUserIds u msgs)
    = has (fun m =>
             ((Message.sender_id m == u) && (Message.receiver_id m == v))
             || ((Message.sender_id m == v) && (Message.receiver_id m == u)))
          msgs.
Proof.
rewrite /conversedUserIds.
set f := (fun ids msg => _).
set p := (fun m => _).
have Hgen : forall acc, (v \in foldl f acc msgs) = (v \in acc) || has p msgs.
  elim: msgs => [|m msgs IH] acc /=; first by rewrite orbF.
  rewrite IH /f /p.
  case Hs: (Message.sender_id m == u) => /=.
    rewrite mem_set_add [v == _]eq_sym.
    case Hr: (Message.receiver_id m == v) => /=; first by rewrite orbT.
    case Hsv: (Message.sender_id m == v) => //=.
    case Hru: (Message.receiver_id m == u) => //=.
    by move: Hr; rewrite (eqP Hru) -(eqP Hs) Hsv.
  case Hr: (Message.receiver_id m == u) => /=.
    by rewrite mem_set_add [v == _]eq_sym andbT orbA; congr (_ || _);
       exact: orbC.
  by rewrite andbF.
by rewrite Hgen in_nil.
Qed.

Lemma conversed_exists (d : database) (u v : uuid) :
  (v \in conversedUserIds u
           [seq m <- messages d
           | (Message.sender_id m == u) || (Message.receiver_id m == u)])
    = conversationExists d u v.
Proof.
rewrite mem_conversedUserIds has_filter -filter_predI -has_filter.
rewrite /conversationExists.
apply: eq_has => m /=.
case Hs: (Message.sender_id m == u); case Hr: (Message.receiver_id m == u);
  by rewrite /= ?andbT ?andbF ?orbF.
Qed.

(** C7: for a requester whose profile has role housekeeper, and without
    store failures, getUsers answers 200 with the owner profiles sorted by
    name ascending: a permutation of all profiles of role owner, none of
    role housekeeper, and none of the requester. *)
Theorem getUsers_housekeeper (u : uuid) (d : database) (us : seq uuid)
  (t : timestamp) (l : seq event) (cur : Profile.t) :
  [seq p <- profiles d | Profile.user_id p == u] = [:: cur] ->
  Profile.role cur = HOUSEKEEPER ->
  exists L : seq Profile.t,
    [/\ getUsers u (World d [::] us t l)
          = (Response 200 true None (ProfileList L) None,
             World d [::] us t
               (l ++ [:: select_ok Profiles; select_ok Profiles])),
        perm_eq L [seq p <- profiles d | Profile.role p == OWNER],
        sorted by_name L,
        all (fun p => Profile.role p != HOUSEKEEPER) L
      & u \notin [seq Profile.user_id p | p <- L]].
Proof.
move=> Hcur Hrole.
set F := [seq p <- profiles d
         | (Profile.role p == OWNER) && (Profile.user_id p != u)].
have HF : F = [seq p <- profiles d | Profile.role p == OWNER].
  apply: eq_in_filter => p Hp.
  case Ho: (Profile.role p == OWNER) => //=.
  case Hu: (Profile.user_id p == u) => //=.
  have: p \in [seq p <- profiles d | Profile.user_id p == u].
    by rewrite mem_filter Hu.
  rewrite Hcur inE => /eqP Hpc.
  by move: Ho; rewrite Hpc Hrole eq_sym OWNER_not_HOUSEKEEPER.
exists (sort by_name F); split.
- rewrite /getUsers /handle /bind /select_single /select_rows /store_call /=.
  by rewrite Hcur /= Hrole eqxx /= -!cats1 -catA.
- by rewrite perm_sort HF.
- exact: (sort_sorted by_name_total).
- rewrite all_sort; apply/allP => p; rewrite mem_filter => /andP [/andP []].
  by move=> /eqP -> _ _; rewrite OWNER_not_HOUSEKEEPER.
- apply/mapP => -[p]; rewrite mem_sort mem_filter => /andP [/andP [_ Hne] _].
  by move=> Hu; move: Hne; rewrite -Hu eqxx.
Qed.

Lemma getUsers_housekeeper_witness :
  let u := str "hk-1" in
  let hk := Profile.Mk (str "p1") u (str "Hana") HOUSEKEEPER 1 in
  let o1 := Profile.Mk (str "p2") (str "ow-1") (str "Zed") OWNER 2 in
  let o2 := Profile.Mk (str "p3") (str "ow-2") (str "Amy") OWNER 3 in
  let d := Database [::] [:: hk; o1; o2] [::] in
  exists L : seq Profile.t,
    [/\ getUsers u (World d [::] [::] 0 [::])
          = (Response 200 true None (ProfileList L) None,
             World d [::] [::] 0 [:: select_ok Profiles; select_ok Profiles]),
        perm_eq L [seq p <- profiles d | Profile.role p == OWNER],
        sorted by_name L,
        all (fun p => Profile.role p != HOUSEKEEPER) L
      & u \notin [seq Profile.user_id p | p <- L]].
Proof.
move=> u hk o1 o2 d.
exact: (@getUsers_housekeeper u d [::] 0 [::] hk (erefl _) (erefl _)).
Defined.

(** C2: for a requester whose profile has role owner, and without store
    failures, getUsers answers 200 with a list A ++ B: A is the other
    owner profiles sorted by name ascending, B, placed after A and not
    merged into it, is the housekeeper profiles with at least one message
    to or from the requester, whatever its delete flags, sorted by name
    ascending; the requester is in neither.  The store is left as it
    was. *)
Theorem getUsers_owner (u : uuid) (d : database) (us : seq uuid)
  (t : timestamp) (l : seq event) (cur : Profile.t) :
  [seq p <- profiles d | Profile.user_id p == u] = [:: cur] ->
  Profile.role cur = OWNER ->
  exists (A B : seq Profile.t) (w' : world),
    [/\ getUsers u (World d [::] us t l)
          = (Response 200 true None (ProfileList (A ++ B)) None, w')
        /\ db w' = d,
        perm_eq A [seq p <- profiles d
                  | (Profile.role p == OWNER) && (Profile.user_id p != u)],
        perm_eq B [seq p <- profiles d
                  | (Profile.role p == HOUSEKEEPER)
                    && conversationExists d u (Profile.user_id p)],
        sorted by_name A /\ sorted by_name B
      & u \notin [seq Profile.user_id p | p <- A ++ B]].
Proof.
move=> Hcur Hrole.
set FA := [seq p <- profiles d
          | (Profile.role p == OWNER) && (Profile.user_id p != u)].
set FB := [seq p <- profiles d
          | (Profile.role p == HOUSEKEEPER)
            && conversationExists d u (Profile.user_id p)].
set ids := conversedUserIds u
             [seq m <- messages d
             | (Message.sender_id m == u) || (Message.receiver_id m == u)].
have Hids : [seq p <- profiles d
            | (Profile.role p == HOUSEKEEPER) && (Profile.user_id p \in ids)]
            = FB.
  by apply: eq_filter => p; rewrite conversed_exists.
have Hnot : u \notin [seq Profile.user_id p | p <- sort by_name FA ++ sort by_name FB].
  apply/mapP => -[p]; rewrite mem_cat !mem_sort !mem_filter.
  case/orP=> /andP [/andP [Hr Hc] Hp] Hu.
    by move: Hc; rewrite -Hu eqxx.
  have: p \in [seq p <- profiles d | Profile.user_id p == u].
    by rewrite mem_filter -Hu eqxx.
  rewrite Hcur inE => /eqP Hpc.
  by move: Hr; rewrite Hpc Hrole OWNER_not_HOUSEKEEPER.
have Hrun : exists w',
    getUsers u (World d [::] us t l)
      = (Response 200 true None
           (ProfileList (sort by_name FA ++ sort by_name FB)) None, w')
    /\ db w' = d.
  rewrite /getUsers /handle /bind /select_single /select_rows /store_call /=.
  rewrite Hcur /= Hrole OWNER_not_HOUSEKEEPER eqxx /= -/ids.
  case Hsz: (0 < size ids) => /=.
    by rewrite Hids; eexists; split.
  have -> : FB = [::]; last by eexists; split.
  rewrite -Hids; move: Hsz; rewrite lt0n => /negbFE /eqP /size0nil ->.
  by rewrite -(@eq_filter _ pred0) ?filter_pred0 // => p; rewrite in_nil andbF.
have [w' [Hw Hd]] := Hrun.
exists (sort by_name FA), (sort by_name FB), w'; split=> //.
- by rewrite perm_sort.
- by rewrite perm_sort.
- by split; exact: (sort_sorted by_name_total).
Qed.

Lemma getUsers_owner_witness :
  let u := str "ow-1" in
  let me := Profile.Mk (str "p1") u (str "Olga") OWNER 1 in
  let o2 := Profile.Mk (str "p2") (str "ow-2") (str "Zed") OWNER 2 in
  let h1 := Profile.Mk (str "p3") (str "hk-1") (str "Amy") HOUSEKEEPER 3 in
  let h2 := Profile.Mk (str "p4") (str "hk-2") (str "Bob") HOUSEKEEPER 4 in
  let m := Message.Mk (str "m1") (str "hk-1") u (str "hi") true true 5 in
  let d := Database [::] [:: me; o2; h1; h2] [:: m] in
  data (getUsers u (World d [::] [::] 0 [::])).1 = ProfileList [:: o2; h1].
Proof.
move=> u me o2 h1 h2 m d.
have [A [B [w' [[-> _] HA HB _ _]]]] :=
  @getUsers_owner u d [::] 0 [::] me (erefl _) (erefl _).
have -> : A = [:: o2].
  by apply/perm_small_eq => //; rewrite perm_sym.
have -> // : B = [:: h1].
by apply/perm_small_eq => //; rewrite perm_sym.
Defined.

(** C8 (as amended): for a requester whose stored role is neither owner
    nor housekeeper, and without store failures, getUsers answers 200 with
    an empty contact list, after the one query that reads the role; no
    error is raised. *)
Theorem getUsers_unknown_role (u : uuid) (d : database) (us : seq uuid)
  (t : timestamp) (l : seq event) (cur : Profile.t) :
  [seq p <- profiles d | Profile.user_id p == u] = [:: cur] ->
  Profile.role cur != OWNER ->
  Profile.role cur != HOUSEKEEPER ->
  getUsers u (World d [::] us t l)
    = (Response 200 true None (ProfileList [::]) None,
       World d [::] us t (l ++ [:: select_ok Profiles])).
Proof.
move=> Hcur /negbTE Ho /negbTE Hh.
rewrite /getUsers /handle /bind /select_single /select_rows /store_call /=.
by rewrite Hcur /= Hh Ho /= cats1.
Qed.

Lemma getUsers_unknown_role_witness :
  let u := str "u1" in
  let p := Profile.Mk (str "p1") u (str "Ann") (str "admin") 1 in
  let d := Database [::] [:: p] [::] in
  getUsers u (World d [::] [::] 0 [::])
    = (Response 200 true None (ProfileList [::]) None,
       World d [::] [::] 0 [:: select_ok Profiles]).
Proof.
move=> u p d.
exact: (@getUsers_unknown_role u d [::] 0 [::] p (erefl _) (erefl _)
          (erefl _)).
Defined.

(* A stored role outside the two values is answered as a normal, empty
   contact list. *)
Lemma getUsers_unknown_role_counterexample :
  let u := str "u1" in
  let p := Profile.Mk (str "p1") u (str "Ann") (str "admin") 1 in
  let o := Profile.Mk (str "p2") (str "u2") (str "Bea") OWNER 2 in
  let d := Database [::] [:: p; o] [::] in
  let r := (getUsers u (World d [::] [::] 0 [::])).1 in
  [/\ Profile.role p \notin [:: OWNER; HOUSEKEEPER],
      status r = 200, success r = true, error r = None
    & data r = ProfileList [::]].
Proof. by split; vm_compute. Qed.

(* --------------------------------------------------------------------- *)
(* sendMessage: the conversation gate                                    *)
(* --------------------------------------------------------------------- *)

Lemma trim_nonempty (s : jsstring) : trim s != [::] -> s != [::].
Proof. by rewrite trim_nil; case: s. Qed.

(* .limit(1) followed by a length test is an existence test. *)
Lemma limit1_has (T : Type) (p : pred T) (s : seq T) :
  (0 < size (take 1 [seq x <- s | p x])) = has p s.
Proof.
elim: s => [|x s IH] //=.
by case: (p x) => //=; rewrite take0.
Qed.

(** C1: the outcome of sendMessage past its input checks is decided by
    canSend (senderRole, receiverRole, priorConversationExists): an owner
    writing to an owner is let through; an owner writing to a housekeeper
    is let through exactly when a message row between the two exists, in
    either direction and whatever its delete flags, and is otherwise
    answered 403; a housekeeper is always let through.  Let through means
    the message is stored and answered 201; refused means the store is
    left as it was. *)
Theorem sendMessage_gate (sender receiver text : jsstring) (body : jsobj)
  (d : database) (us : seq uuid) (t : timestamp) (l : seq event)
  (ru : User.t) (sp rp : Profile.t) (sr rr : role) :
  get body (str "receiver_id") = JStr receiver ->
  get body (str "message") = JStr text ->
  trim receiver != [::] ->
  trim text != [::] ->
  [seq x <- users d | User.id x == receiver] = [:: ru] ->
  sender != receiver ->
  [seq p <- profiles d | Profile.user_id p == sender] = [:: sp] ->
  Profile.role sp = role_name sr ->
  (sr = Owner ->
     [seq p <- profiles d | Profile.user_id p == receiver] = [:: rp]
     /\ Profile.role rp = role_name rr) ->
  let newMessage :=
    Message.Mk (head [::] us) sender receiver (trim text) false false t in
  let allowed := canSend sr rr (conversationExists d sender receiver) in
  exists w' : world,
    sendMessage sender body (World d [::] us t l)
      = (if allowed
         then json 201 true (str "Message sent successfully")
                (OneMessage newMessage)
         else json 403 false
                (str "You can only message housekeepers who have messaged you first")
                NoData,
         w')
    /\ db w'
       = if allowed
         then Database (users d) (profiles d) (rcons (messages d) newMessage)
         else d.
Proof.
move=> Hr Hm Hrt Hmt Hu Hne Hs Hsr Hrp newMessage allowed.
rewrite /sendMessage /handle /bind /eval /=.
rewrite Hr Hm /= (negbTE Hrt) (negbTE Hmt) (trim_nonempty Hrt)
        (trim_nonempty Hmt) /=.
rewrite /select_single /select_rows /insert_message /draw_uuid /read_clock
        /bind /store_call /= Hu /= (negbTE Hne) /= Hs /= Hsr.
case: sr Hsr Hrp @allowed => Hsr Hrp /=; last by eexists; split.
have [Hp Hrr] := Hrp (erefl _).
rewrite ?eqxx /= Hp /= Hrr.
case: rr Hrr {Hrp} => Hrr /=; first by eexists; split.
rewrite ?eqxx /= !limit1_has -has_predU.
have -> : has (predU
                 (fun m => (Message.sender_id m == sender)
                           && (Message.receiver_id m == receiver))
                 (fun m => (Message.sender_id m == receiver)
                           && (Message.receiver_id m == sender)))
              (messages d)
          = conversationExists d sender receiver by [].
by case: (conversationExists d sender receiver) => /=; eexists; split.
Qed.

Lemma sendMessage_gate_witness :
  let A := str "owner-a" in
  let B := str "keeper-b" in
  let ua := User.Mk A (str "a@x.io") (str "h1") 1 in
  let ub := User.Mk B (str "b@x.io") (str "h2") 2 in
  let pa := Profile.Mk (str "p1") A (str "Ada") OWNER 1 in
  let pb := Profile.Mk (str "p2") B (str "Bo") HOUSEKEEPER 2 in
  let m := Message.Mk (str "m1") B A (str "hi") true true 3 in
  let d := Database [:: ua; ub] [:: pa; pb] [:: m] in
  let d0 := Database [:: ua; ub] [:: pa; pb] [::] in
  let body := [:: (str "receiver_id", JStr B);
                  (str "message", JStr (str " ok "))] in
  let new := Message.Mk (str "m2") A B (str "ok") false false 7 in
  (exists w',
     sendMessage A body (World d [::] [:: str "m2"] 7 [::])
       = (json 201 true (str "Message sent successfully") (OneMessage new),
          w')
     /\ db w' = Database [:: ua; ub] [:: pa; pb] [:: m; new])
  /\ (exists w',
        sendMessage A body (World d0 [::] [:: str "m2"] 7 [::])
          = (json 403 false
               (str "You can only message housekeepers who have messaged you first")
               NoData, w')
        /\ db w' = d0).
Proof.
move=> A B ua ub pa pb m d d0 body new; split.
- exact: (@sendMessage_gate A B (str " ok ") body d [:: str "m2"] 7 [::]
            ub pa pb Owner Housekeeper (erefl _) (erefl _) (erefl _)
            (erefl _) (erefl _) (erefl _) (erefl _) (erefl _)
            (fun _ => conj (erefl _) (erefl _))).
- exact: (@sendMessage_gate A B (str " ok ") body d0 [:: str "m2"] 7 [::]
            ub pa pb Owner Housekeeper (erefl _) (erefl _) (erefl _)
            (erefl _) (erefl _) (erefl _) (erefl _) (erefl _)
            (fun _ => conj (erefl _) (erefl _))).
Defined.

(* --------------------------------------------------------------------- *)
(* deleteMessage                                                         *)
(* --------------------------------------------------------------------- *)

Section UpdateFacts.

Variables (key : uuid) (fields : Message.t -> Message.t).
Hypothesis fields_id : forall x, Message.id (fields x) = Message.id x.

Let upd (x : Message.t) := if Message.id x == key then fields x else x.

Lemma update_id (x : Message.t) : Message.id (upd x) = Message.id x.
Proof. by rewrite /upd; case: ifP. Qed.

(* The updated table has the same rows under the same ids, in the same
   order. *)
Lemma update_ids (s : seq Message.t) :
  [seq Message.id x | x <- map upd s] = [seq Message.id x | x <- s].
Proof. by rewrite -map_comp; apply: eq_map => x /=; rewrite update_id. Qed.

(* Rows with another id are untouched. *)
Lemma update_others (s : seq Message.t) :
  [seq x <- map upd s | Message.id x != key]
    = [seq x <- s | Message.id x != key].
Proof.
elim: s => [|x s IH] //=; rewrite update_id IH /upd.
by case Hk: (Message.id x == key).
Qed.

(* The row of that id is the updated one. *)
Lemma update_row (s : seq Message.t) (m : Message.t) :
  [seq x <- s | Message.id x == key] = [:: m] ->
  [seq x <- map upd s | Message.id x == key] = [:: fields m].
Proof.
move=> Hm.
have -> : [seq x <- map upd s | Message.id x == key]
          = map fields [seq x <- s | Message.id x == key].
  elim: s {Hm} => [|x s IH] //=; rewrite update_id IH /upd.
  by case Hk: (Message.id x == key).
by rewrite Hm.
Qed.

(* An update that does not change the row of that id changes nothing. *)
Lemma update_same (s : seq Message.t) (m : Message.t) :
  [seq x <- s | Message.id x == key] = [:: m] ->
  fields m = m -> map upd s = s.
Proof.
move=> Hm Hf; rewrite -[RHS]map_id; apply/eq_in_map => x Hx.
rewrite /upd; case: ifP => // Hk.
have: x \in [seq x <- s | Message.id x == key] by rewrite mem_filter Hk.
by rewrite Hm inE => /eqP ->.
Qed.

End UpdateFacts.

Lemma mark_both_id (x : Message.t) : Message.id (mark_both x) = Message.id x.
Proof. by []. Qed.

Lemma mark_sender_id (x : Message.t) :
  Message.id (mark_sender x) = Message.id x.
Proof. by []. Qed.

Lemma mark_receiver_id (x : Message.t) :
  Message.id (mark_receiver x) = Message.id x.
Proof. by []. Qed.

(* A message whose row carries both flags is in nobody's view. *)
Lemma hidden_from_views (Date : timestamp -> nat) (u o key : uuid)
  (d : database) (m : Message.t) :
  [seq x <- messages d | Message.id x == key] = [:: m] ->
  Message.deleted_for_sender m -> Message.deleted_for_receiver m ->
  key \notin
    [seq Message.id x
    | x <- sort (by_date Date)
             ([seq x <- messages d | sent_visible u o x]
              ++ [seq x <- messages d | received_visible u o x])].
Proof.
move=> Hm Hs Hr; apply/mapP => -[x Hx Hk].
have Hxm : x = m.
  have: x \in [seq x <- messages d | Message.id x == key].
    move: Hx; rewrite mem_sort mem_cat !mem_filter.
    by rewrite -Hk eqxx /=; case/orP=> /andP [].
  by rewrite Hm inE => /eqP.
move: Hx; rewrite mem_sort mem_cat !mem_filter Hxm.
by rewrite /sent_visible /received_visible Hs Hr !andbF.
Qed.

(* One run of deleteMessage by a party to the message when the store
   does not fail. *)
Lemma deleteMessage_run (r mid : uuid) (body : jsobj) (d : database)
  (us : seq uuid) (t : timestamp) (l : seq event) (m : Message.t) :
  [seq x <- messages d | Message.id x == mid] = [:: m] ->
  (Message.sender_id m == r) || (Message.receiver_id m == r) ->
  let v := get body (str "deleteForEveryone") in
  let fields :=
    if strict_true v then mark_both
    else if Message.sender_id m == r then mark_sender else mark_receiver in
  deleteMessage r mid body (World d [::] us t l)
    = if strict_true v && (Message.sender_id m != r) then
        (json 403 false
           (str "Only the sender can delete messages for everyone") NoData,
         World d [::] us t (l ++ [:: select_ok Messages]))
      else
        (json 200 true
           (if truthy v then str "Message deleted for everyone"
            else str "Message deleted for you") NoData,
         World (Database (users d) (profiles d)
                  [seq if Message.id x == mid then fields x else x
                  | x <- messages d])
               [::] us t (l ++ [:: select_ok Messages; update_ok mid])).
Proof.
move=> Hm Hparty v fields.
rewrite /deleteMessage /handle /bind /select_single /update_messages
        /store_call /= Hm /= -/v.
have -> : (Message.sender_id m != r) && (Message.receiver_id m != r) = false.
  by rewrite -negb_or Hparty.
rewrite /fields; case: (strict_true v) => /=.
  case: (Message.sender_id m == r) => /=; first by rewrite -!cats1 -catA.
  by rewrite cats1.
by rewrite -!cats1 -catA.
Qed.

(** C4: with deleteForEveryone = true and without store failures, a
    requester who is the sender of the message is answered 200, the row
    then carries both delete flags, and the message is in no conversation
    view afterwards, of either party or of anyone; a requester who is only
    the receiver is answered 403 and the store is left as it was. *)
Theorem deleteMessage_for_everyone (r mid : uuid) (body : jsobj)
  (d : database) (us : seq uuid) (t : timestamp) (l : seq event)
  (m : Message.t) :
  get body (str "deleteForEveryone") = JBool true ->
  [seq x <- messages d | Message.id x == mid] = [:: m] ->
  (Message.sender_id m == r) || (Message.receiver_id m == r) ->
  if Message.sender_id m == r then
    exists d' : database,
      [/\ deleteMessage r mid body (World d [::] us t l)
            = (json 200 true (str "Message deleted for everyone") NoData,
               World d' [::] us t
                 (l ++ [:: select_ok Messages; update_ok mid])),
          [seq x <- messages d' | Message.id x == mid] = [:: mark_both m],
          all (fun x => Message.deleted_for_sender x
                        && Message.deleted_for_receiver x)
              [seq x <- messages d' | Message.id x == mid]
        & forall Date u o us' t' l',
          exists L : seq Message.t,
            (getConversation Date u o (World d' [::] us' t' l')).1
              = Response 200 true None (MessageList L) None
            /\ mid \notin [seq Message.id x | x <- L]]
  else
    deleteMessage r mid body (World d [::] us t l)
      = (json 403 false
           (str "Only the sender can delete messages for everyone") NoData,
         World d [::] us t (l ++ [:: select_ok Messages])).
Proof.
move=> Hb Hm Hparty.
have Hrun := deleteMessage_run body us t l Hm Hparty.
rewrite Hb in Hrun.
case: (Message.sender_id m == r) Hrun => Hrun; last exact: Hrun.
rewrite /= in Hrun; move: Hrun; set d' := Database _ _ _ => Hrun.
have Hrow : [seq x <- messages d' | Message.id x == mid] = [:: mark_both m].
  exact: update_row mark_both_id _ _ Hm.
exists d'; split.
- exact: Hrun.
- exact: Hrow.
- by rewrite Hrow.
- move=> Date u o us' t' l'; rewrite getConversation_run /=.
  eexists; split; first by [].
  exact: hidden_from_views Hrow _ _.
Qed.

Lemma deleteMessage_for_everyone_witness :
  let A := str "user-a" in
  let B := str "user-b" in
  let m := Message.Mk (str "m1") A B (str "hi") false false 3 in
  let d := Database [::] [::] [:: m] in
  let body := [:: (str "deleteForEveryone", JBool true)] in
  (exists d',
     deleteMessage A (str "m1") body (World d [::] [::] 0 [::])
       = (json 200 true (str "Message deleted for everyone") NoData,
          World d' [::] [::] 0
            [:: select_ok Messages; update_ok (str "m1")])
     /\ messages d' = [:: mark_both m])
  /\ deleteMessage B (str "m1") body (World d [::] [::] 0 [::])
     = (json 403 false
          (str "Only the sender can delete messages for everyone") NoData,
        World d [::] [::] 0 [:: select_ok Messages]).
Proof.
move=> A B m d body; split.
- have [d' [Hrun Hrow _ _]] :=
    @deleteMessage_for_everyone A (str "m1") body d [::] 0 [::] m
      (erefl _) (erefl _) (erefl _).
  exists d'; split; first exact: Hrun.
  by case: Hrun => <-.
- exact: (@deleteMessage_for_everyone B (str "m1") body d [::] 0 [::] m
            (erefl _) (erefl _) (erefl _)).
Defined.

(** C5: with deleteForEveryone other than true and without store
    failures, a party to the message is answered 200 after one update
    that sets the flag of the requester's side only: no row is removed or
    added, the rows of other ids are as they were, and the row of the
    message keeps its sender, receiver, body, creation time and the other
    side's flag. *)
Theorem deleteMessage_for_me (r mid : uuid) (body : jsobj) (d : database)
  (us : seq uuid) (t : timestamp) (l : seq event) (m : Message.t) :
  strict_true (get body (str "deleteForEveryone")) = false ->
  [seq x <- messages d | Message.id x == mid] = [:: m] ->
  (Message.sender_id m == r) || (Message.receiver_id m == r) ->
  let m' := if Message.sender_id m == r then mark_sender m
            else mark_receiver m in
  exists d' : database,
    [/\ deleteMessage r mid body (World d [::] us t l)
          = (json 200 true
               (if truthy (get body (str "deleteForEveryone"))
                then str "Message deleted for everyone"
                else str "Message deleted for you") NoData,
             World d' [::] us t
               (l ++ [:: select_ok Messages; update_ok mid])),
        [/\ users d' = users d, profiles d' = profiles d,
            [seq Message.id x | x <- messages d']
              = [seq Message.id x | x <- messages d]
          & [seq x <- messages d' | Message.id x != mid]
              = [seq x <- messages d | Message.id x != mid]],
        [seq x <- messages d' | Message.id x == mid] = [:: m'],
        [/\ Message.id m' = Message.id m,
            Message.sender_id m' = Message.sender_id m,
            Message.receiver_id m' = Message.receiver_id m,
            Message.message m' = Message.message m
          & Message.created_at m' = Message.created_at m]
      & if Message.sender_id m == r
        then Message.deleted_for_sender m'
             /\ Message.deleted_for_receiver m'
                = Message.deleted_for_receiver m
        else Message.deleted_for_receiver m'
             /\ Message.deleted_for_sender m'
                = Message.deleted_for_sender m].
Proof.
move=> Hb Hm Hparty m'.
have Hrun := deleteMessage_run body us t l Hm Hparty.
rewrite /= Hb /= in Hrun.
set fields := if Message.sender_id m == r then mark_sender else mark_receiver.
have Hid : forall x, Message.id (fields x) = Message.id x.
  by rewrite /fields; case: ifP.
have Hm' : m' = fields m by rewrite /m' /fields; case: ifP.
move: Hrun; rewrite -/fields; set d' := Database _ _ _ => Hrun.
exists d'; split.
- exact: Hrun.
- split=> //; first exact: update_ids Hid _.
  exact: update_others Hid _.
- by rewrite Hm'; exact: update_row Hid _ _ Hm.
- by rewrite /m'; case: (Message.sender_id m == r).
- by rewrite /m'; case: (Message.sender_id m == r).
Qed.

Lemma deleteMessage_for_me_witness :
  let A := str "user-a" in
  let B := str "user-b" in
  let m := Message.Mk (str "m1") A B (str "hi") false false 3 in
  let n := Message.Mk (str "m2") B A (str "yo") false false 4 in
  let d := Database [::] [::] [:: m; n] in
  exists d',
    deleteMessage B (str "m1") [::] (World d [::] [::] 0 [::])
      = (json 200 true (str "Message deleted for you") NoData,
         World d' [::] [::] 0 [:: select_ok Messages; update_ok (str "m1")])
    /\ [seq x <- messages d' | Message.id x == str "m1"]
       = [:: Message.Mk (str "m1") A B (str "hi") false true 3].
Proof.
move=> A B m n d.
have [d' [Hrun _ Hrow _ _]] :=
  @deleteMessage_for_me B (str "m1") [::] d [::] 0 [::] m
    (erefl _) (erefl _) (erefl _).
by exists d'; split; [exact: Hrun | exact: Hrow].
Defined.

(* Whatever the request, the mode and the store failures, deleteMessage
   removes no row: users and profiles are untouched and the messages
   table keeps its rows, under the same ids and in the same order. *)
Lemma deleteMessage_keeps_rows (r mid : uuid) (body : jsobj) (w : world) :
  let out := deleteMessage r mid body w in
  [/\ users (db out.2) = users (db w),
      profiles (db out.2) = profiles (db w)
    & [seq Message.id x | x <- messages (db out.2)]
        = [seq Message.id x | x <- messages (db w)]].
Proof.
case: w => d fs us t l.
rewrite /deleteMessage /handle /bind /select_single /update_messages
        /store_call /orThrow /pure /throw /respond /=.
repeat match goal with
  | |- context [match ?x with [::] => _ | _ :: _ => _ end] =>
      is_var x; case: x => [|[?|] ?] /=
  | |- context [single ?s] => case: (single s) => [?|?] /=
  | |- context [if ?b then _ else _] => case: b => /=
  end;
  split=> //; rewrite -map_comp; apply: eq_map => x /=; by case: ifP.
Qed.

Lemma mark_idem (r : uuid) (v : jsval) (m : Message.t) :
  let fields :=
    if strict_true v then mark_both
    else if Message.sender_id m == r then mark_sender else mark_receiver in
  fields (fields m) = fields m.
Proof.
by case: (strict_true v) => /=; case: (Message.sender_id m == r).
Qed.

(** C6 (as amended): for a party r to a message m and without store
    failures, (a) a delete with deleteForEveryone other than true on a
    message whose flag on r's side is already set is answered 200 and
    leaves the whole store as it was, the first time and again the second
    time; (b) in either mode, repeating a delete that was answered 200 is
    answered the same again and leaves the store as the first one left
    it. *)
Theorem deleteMessage_idempotent (r mid : uuid) (body : jsobj)
  (d : database) (us : seq uuid) (t : timestamp) (l : seq event)
  (m : Message.t) :
  [seq x <- messages d | Message.id x == mid] = [:: m] ->
  (Message.sender_id m == r) || (Message.receiver_id m == r) ->
  let w := World d [::] us t l in
  (strict_true (get body (str "deleteForEveryone")) = false ->
   deleted_for r m ->
   exists resp l1 l2,
     [/\ status resp = 200 /\ success resp,
         deleteMessage r mid body w = (resp, World d [::] us t l1)
       & deleteMessage r mid body (World d [::] us t l1)
           = (resp, World d [::] us t l2)])
  /\ (forall resp w1,
        deleteMessage r mid body w = (resp, w1) ->
        status resp = 200 ->
        exists l2,
          deleteMessage r mid body w1 = (resp, World (db w1) [::] us t l2)).
Proof.
move=> Hm Hparty w; split.
- move=> Hb Hdel.
  have Hfix : (if Message.sender_id m == r then mark_sender
               else mark_receiver) m = m.
    move: Hdel; rewrite /deleted_for; case: (Message.sender_id m == r);
      by case: (m) => i s o b ds dr c /= ->.
  have Hsame : [seq if Message.id x == mid
                    then (if Message.sender_id m == r then mark_sender
                          else mark_receiver) x
                    else x | x <- messages d] = messages d.
    exact: update_same Hm Hfix.
  have Hrun : forall l0,
      deleteMessage r mid body (World d [::] us t l0)
        = (json 200 true
             (if truthy (get body (str "deleteForEveryone"))
              then str "Message deleted for everyone"
              else str "Message deleted for you") NoData,
           World d [::] us t (l0 ++ [:: select_ok Messages; update_ok mid])).
    move=> l0; rewrite (deleteMessage_run body us t l0 Hm Hparty) /= Hb /=.
    by rewrite Hsame; case: (d).
  by eexists; eexists; eexists; split; [split | exact: Hrun | exact: Hrun].
- move=> resp w1.
  rewrite /w (deleteMessage_run body us t l Hm Hparty) /=.
  set v := get body _.
  case Hgate: (strict_true v && (Message.sender_id m != r)).
    by case=> <- _.
  case=> Hresp Hw1 _.
  set fields := (if strict_true v then mark_both
                 else if Message.sender_id m == r then mark_sender
                      else mark_receiver).
  have Hid : forall x, Message.id (fields x) = Message.id x.
    by rewrite /fields; case: (strict_true v) => //; case: ifP.
  have Hrow := update_row Hid Hm.
  have Hp1 : (Message.sender_id (fields m) == r)
             || (Message.receiver_id (fields m) == r).
    rewrite /fields; case: (strict_true v); first exact: Hparty.
    by case: ifP => _; exact: Hparty.
  have Hs1 : Message.sender_id (fields m) = Message.sender_id m.
    by rewrite /fields; case: (strict_true v) => //; case: ifP.
  move: Hw1; set d1 := Database _ _ _ => Hw1.
  have Hrow1 : [seq x <- messages d1 | Message.id x == mid] = [:: fields m].
    exact: Hrow.
  rewrite -Hw1 (deleteMessage_run body _ _ _ Hrow1 Hp1) /= -/v Hs1 Hgate.
  rewrite -/fields -Hresp.
  eexists; congr (_, World _ _ _ _ _).
  congr Database; rewrite -/fields.
  apply: (update_same Hrow).
  exact: (mark_idem r v m).
Qed.

Lemma deleteMessage_idempotent_witness :
  let A := str "user-a" in
  let B := str "user-b" in
  let m := Message.Mk (str "m1") A B (str "hi") true false 3 in
  let d := Database [::] [::] [:: m] in
  exists resp l1 l2,
    [/\ status resp = 200 /\ success resp,
        deleteMessage A (str "m1") [::] (World d [::] [::] 0 [::])
          = (resp, World d [::] [::] 0 l1)
      & deleteMessage A (str "m1") [::] (World d [::] [::] 0 l1)
          = (resp, World d [::] [::] 0 l2)].
Proof.
move=> A B m d.
have [Ha _] :=
  @deleteMessage_idempotent A (str "m1") [::] d [::] 0 [::] m
    (erefl _) (erefl _).
exact: (Ha (erefl _) (erefl _)).
Defined.

(* A message its sender has already deleted for themselves: a delete for
   everyone by the sender is answered 200 and sets the receiver's flag; a
   delete for everyone by the receiver, on a message already deleted for
   the receiver, is answered 403. *)
Lemma deleteMessage_idempotent_counterexample :
  let A := str "user-a" in
  let B := str "user-b" in
  let m := Message.Mk (str "m1") A B (str "hi") true false 3 in
  let n := Message.Mk (str "m2") A B (str "yo") false true 4 in
  let d := Database [::] [::] [:: m; n] in
  let body := [:: (str "deleteForEveryone", JBool true)] in
  let by_sender := deleteMessage A (str "m1") body (World d [::] [::] 0 [::]) in
  let by_receiver :=
    deleteMessage B (str "m2") body (World d [::] [::] 0 [::]) in
  [/\ deleted_for A m /\ deleted_for B n,
      status by_sender.1 = 200,
      messages (db by_sender.2)
        = [:: Message.Mk (str "m1") A B (str "hi") true true 3; n],
      messages (db by_sender.2) <> messages d
    & status by_receiver.1 = 403].
Proof. by split; vm_compute. Qed.

(* --------------------------------------------------------------------- *)
(* signup                                                                *)
(* --------------------------------------------------------------------- *)

Section SignupFacts.

Variable hashPassword : jsstring -> jsstring.
Variable generateToken : uuid -> jsstring -> jsstring -> jsstring.
Variable toLowerCase : jsstring -> jsstring.

Lemma trace_rcons1 (l : seq event) (a : event) :
  drop (size l) (rcons l a) = [:: a].
Proof. by rewrite -cats1 drop_size_cat. Qed.

Lemma trace_rcons2 (l : seq event) (a b : event) :
  drop (size l) (rcons (rcons l a) b) = [:: a; b].
Proof. by rewrite -!cats1 -catA drop_size_cat. Qed.

Lemma trace_rcons3 (l : seq event) (a b c : event) :
  drop (size l) (rcons (rcons (rcons l a) b) c) = [:: a; b; c].
Proof. by rewrite -!cats1 -!catA drop_size_cat. Qed.

Lemma trace_rcons4 (l : seq event) (a b c e : event) :
  drop (size l) (rcons (rcons (rcons (rcons l a) b) c) e) = [:: a; b; c; e].
Proof. by rewrite -!cats1 -!catA drop_size_cat. Qed.

(* After DELETE .. WHERE id = uid no row of that id is left. *)
Lemma deleted_absent (uid : uuid) (s : seq User.t) :
  uid \notin [seq User.id u | u <- [seq u <- s | User.id u != uid]].
Proof.
apply/mapP => -[x]; rewrite mem_filter => /andP [Hne _] Hx.
by move: Hne; rewrite -Hx eqxx.
Qed.

(* Deleting the row just appended under a fresh id restores the table. *)
Lemma delete_created (uid : uuid) (s : seq User.t) (u : User.t) :
  User.id u = uid -> uid \notin [seq User.id x | x <- s] ->
  [seq x <- rcons s u | User.id x != uid] = s.
Proof.
move=> Hu Hfresh; rewrite filter_rcons Hu eqxx /=.
apply/all_filterP/allP => x Hx.
by apply: contra Hfresh => /eqP <-; apply: map_f.
Qed.

(* The row just appended is in the table. *)
Lemma created_present (uid : uuid) (s : seq User.t) (u : User.t) :
  User.id u = uid -> uid \in [seq User.id x | x <- rcons s u].
Proof. by move=> <-; rewrite map_rcons mem_rcons mem_head. Qed.

(** C9 (as amended): in every run of signup in which the creation of the
    Profile row fails, the store calls made are: the look-up by email,
    the creation of the User row (answered), the failed creation of the
    Profile row, and then a delete of that same User row; only after it
    the error of the Profile creation is surfaced as a 500.  The error in
    the answer is the one the store gave to the Profile creation (the
    third call), whatever the store answers to the delete (the fourth
    call): the answer of the delete is not looked at.  When the delete is
    carried out, no row of the new id is left, and the users table is
    what it was before the request if the new id was fresh; when the
    delete fails too, the new row stays. *)
Theorem signup_compensating_delete (body : jsobj) (w : world) :
  let out := signup hashPassword generateToken toLowerCase body w in
  has profile_insert_failed (trace w out.2) ->
  exists (uid pid : uuid) (sel del : bool) (e : pgerror),
    [/\ trace w out.2
          = [:: Event (OpSelect Users) sel; Event (OpInsert Users uid) false;
                Event (OpInsert Profiles pid) true;
                Event (OpDelete Users uid) del],
        nth None (faults w) 2 = Some e
        /\ del = isSome (nth None (faults w) 3),
        out.1 = Response 500 false (Some (str "Error registering user"))
                  NoData (Some (emsg e)),
        del = false ->
        uid \notin [seq User.id u | u <- users (db out.2)]
        /\ (uid \notin [seq User.id u | u <- users (db w)] ->
            users (db out.2) = users (db w))
      & del = true -> uid \in [seq User.id u | u <- users (db out.2)]].
Proof.
case: w => d fs us t l.
rewrite /signup /handle /bind /eval /trace.
case: (validateRequiredFields _ _) => [v|msg] /=; last by rewrite drop_size.
case: (isValid v) => /=; last by rewrite drop_size.
case: (isValidEmail _) => /=; last by rewrite drop_size.
case: (isValidPassword _) => /=; last by rewrite drop_size.
case: (isValidRole _) => /=; last by rewrite drop_size.
rewrite /select_single /insert_user /insert_profile /delete_user /draw_uuid
        /read_clock /bind /store_call /=.
repeat match goal with
  | |- context [match ?x with [::] => _ | _ :: _ => _ end] =>
      is_var x; case: x => [|[?|] ?] /=
  | |- context [single ?s] => case: (single s) => [?|?] /=
  | |- context [if ?b then _ else _] => case: b => /=
  end;
  rewrite ?trace_rcons1 ?trace_rcons2 ?trace_rcons3 ?trace_rcons4 //=.
all: move=> _; do 5 eexists; split;
  [ reflexivity | split; reflexivity | reflexivity
  | by [] || (by move=> _; split; [exact: deleted_absent
                                  | exact: delete_created])
  | by [] || (by move=> _; exact: created_present) ].
Qed.


End SignupFacts.

Lemma signup_compensating_delete_witness :
  let body := [:: (str "email", JStr (str "ann@x.io"));
                  (str "password", JStr (str "secret1"));
                  (str "name", JStr (str " Ann "));
                  (str "role", JStr (str "owner"))] in
  let e := PgError (str "08006") (str "connection failure") in
  let e' := PgError (str "42501") (str "delete refused") in
  let w := World (Database [::] [::] [::]) [:: None; None; Some e; Some e']
             [:: str "u1"; str "p1"] 7 [::] in
  let out := signup id (fun a _ _ => a) id body w in
  exists (uid pid : uuid) (sel del : bool) (e : pgerror),
    [/\ trace w out.2
          = [:: Event (OpSelect Users) sel; Event (OpInsert Users uid) false;
                Event (OpInsert Profiles pid) true;
                Event (OpDelete Users uid) del],
        nth None (faults w) 2 = Some e
        /\ del = isSome (nth None (faults w) 3),
        out.1 = Response 500 false (Some (str "Error registering user"))
                  NoData (Some (emsg e)),
        del = false ->
        uid \notin [seq User.id u | u <- users (db out.2)]
        /\ (uid \notin [seq User.id u | u <- users (db w)] ->
            users (db out.2) = users (db w))
      & del = true -> uid \in [seq User.id u | u <- users (db out.2)]].
Proof.
move=> body e e' w out.
exact: (@signup_compensating_delete id (fun a _ _ => a) id body w (erefl _)).
Defined.

(* That run, evaluated: the delete is refused with an error of its own,
   and the answer still carries the error of the Profile creation. *)
Example signup_delete_error_unseen :
  let body := [:: (str "email", JStr (str "ann@x.io"));
                  (str "password", JStr (str "secret1"));
                  (str "name", JStr (str " Ann "));
                  (str "role", JStr (str "owner"))] in
  let e := PgError (str "08006") (str "connection failure") in
  let e' := PgError (str "42501") (str "delete refused") in
  let w := World (Database [::] [::] [::]) [:: None; None; Some e; Some e']
             [:: str "u1"; str "p1"] 7 [::] in
  let out := signup id (fun a _ _ => a) id body w in
  [/\ trace w out.2
        = [:: Event (OpSelect Users) true;
              Event (OpInsert Users (str "u1")) false;
              Event (OpInsert Profiles (str "p1")) true;
              Event (OpDelete Users (str "u1")) true],
      error out.1 = Some (str "connection failure")
    & [seq User.id u | u <- users (db out.2)] = [:: str "u1"]].
Proof. by split; vm_compute. Qed.

(* The same run, evaluated: the new row is gone after the rollback. *)
Example signup_rollback_run :
  let body := [:: (str "email", JStr (str "ann@x.io"));
                  (str "password", JStr (str "secret1"));
                  (str "name", JStr (str " Ann "));
                  (str "role", JStr (str "owner"))] in
  let e := PgError (str "08006") (str "connection failure") in
  let w := World (Database [::] [::] [::]) [:: None; None; Some e]
             [:: str "u1"; str "p1"] 7 [::] in
  let out := signup id (fun a _ _ => a) id body w in
  [/\ trace w out.2
        = [:: Event (OpSelect Users) true;
              Event (OpInsert Users (str "u1")) false;
              Event (OpInsert Profiles (str "p1")) true;
              Event (OpDelete Users (str "u1")) false],
      error out.1 = Some (str "connection failure")
    & users (db out.2) = [::]].
Proof. by split; vm_compute. Qed.

(* The same request when the store also fails the compensating delete:
   the delete is issued, its failure goes unnoticed, the Profile error is
   surfaced, and the new User row is left behind. *)
Lemma signup_rollback_counterexample :
  let body := [:: (str "email", JStr (str "ann@x.io"));
                  (str "password", JStr (str "secret1"));
                  (str "name", JStr (str " Ann "));
                  (str "role", JStr (str "owner"))] in
  let e := PgError (str "08006") (str "connection failure") in
  let w := World (Database [::] [::] [::]) [:: None; None; Some e; Some e]
             [:: str "u1"; str "p1"] 7 [::] in
  let out := signup id (fun a _ _ => a) id body w in
  [/\ trace w out.2
        = [:: Event (OpSelect Users) true;
              Event (OpInsert Users (str "u1")) false;
              Event (OpInsert Profiles (str "p1")) true;
              Event (OpDelete Users (str "u1")) true],
      status out.1 = 500 /\ error out.1 = Some (str "connection failure"),
      users (db out.2) = [:: User.Mk (str "u1") (str "ann@x.io")
                               (str "secret1") 7]
    & profiles (db out.2) = [::]].
Proof. by split; vm_compute. Qed.


(* ===================================================================== *)
(* Further properties of the controllers                                 *)
(* ===================================================================== *)

(* All paths of a handler body, whatever the store answers. *)
Ltac explore :=
  repeat match goal with
  | |- context [match ?x with [::] => _ | _ :: _ => _ end] =>
      is_var x; case: x => [|[?|] ?] /=
  | |- context [single ?s] => case: (single s) => [?|?] /=
  | |- context [if ?b then _ else _] => case: b => /=
  end.

Ltac unfold_store :=
  rewrite /select_single /select_rows /insert_message /insert_user
          /insert_profile /update_messages /delete_user /draw_uuid
          /read_clock /bind /store_call /orThrow /pure /throw /respond /eval.

(* --------------------------------------------------------------------- *)
(* The reading handlers                                                  *)
(* --------------------------------------------------------------------- *)

(** X1: getMessages, getConversation, getUsers and login never change the
    store, whatever the request and whatever the store answers. *)
Theorem reading_handlers_keep_store
  (comparePassword : jsstring -> jsstring -> bool)
  (generateToken : uuid -> jsstring -> jsstring -> jsstring)
  (toLowerCase : jsstring -> jsstring) (Date : timestamp -> nat)
  (a b : uuid) (body : jsobj) (w : world) :
  [/\ db (getMessages a b w).2 = db w,
      db (getConversation Date a b w).2 = db w,
      db (getUsers a w).2 = db w
    & db (login comparePassword generateToken toLowerCase body w).2 = db w].
Proof.
case: w => d fs us t l; split.
- by rewrite /getMessages /handle; unfold_store; rewrite /=; explore.
- by rewrite /getConversation /handle; unfold_store; rewrite /=; explore.
- by rewrite /getUsers /handle; unfold_store; rewrite /=; explore.
- rewrite /login /handle; unfold_store.
  case: (validateRequiredFields _ _) => [v|m] //=.
  by explore.
Qed.

Lemma by_created_at_total : total by_created_at.
Proof. by move=> a b; exact: leq_total. Qed.

Lemma by_created_at_trans : transitive by_created_at.
Proof. by move=> b a c; exact: leq_trans. Qed.

(* One run of getMessages on the requester's own id when the store does
   not fail. *)
Lemma getMessages_run (u : uuid) (d : database) (us : seq uuid)
  (t : timestamp) (l : seq event) :
  getMessages u u (World d [::] us t l)
    = (Response 200 true None
         (MessageList
            (sort by_created_at
               [seq m <- messages d
               | (Message.sender_id m == u) || (Message.receiver_id m == u)]))
         None,
       World d [::] us t (l ++ [:: select_ok Messages])).
Proof.
rewrite /getMessages /handle; unfold_store.
by rewrite eqxx /= cats1.
Qed.

(** X2: getMessages answers another user's id with 403 before any store
    call, in every world.  For the requester's own id, and without store
    failures, it answers 200 with every message the user sent or
    received, ascending by created_at, whatever the delete flags: a
    message deleted on either side or on both is still listed. *)
Theorem getMessages_inclusive (u : uuid) (d : database) (us : seq uuid)
  (t : timestamp) (l : seq event) :
  exists L : seq Message.t,
    [/\ getMessages u u (World d [::] us t l)
          = (Response 200 true None (MessageList L) None,
             World d [::] us t (l ++ [:: select_ok Messages])),
        perm_eq L [seq m <- messages d
                  | (Message.sender_id m == u) || (Message.receiver_id m == u)],
        sorted by_created_at L,
        forall m, m \in messages d ->
          (Message.sender_id m == u) || (Message.receiver_id m == u) ->
          m \in L
      & forall v w, v != u ->
          getMessages u v w
            = (json 403 false (str "Unauthorized to view these messages")
                 NoData, w)].
Proof.
eexists; split; first exact: getMessages_run.
- by rewrite perm_sort.
- exact: (sort_sorted by_created_at_total).
- by move=> m Hm Hu; rewrite mem_sort mem_filter Hu.
- by move=> v w Hv; rewrite /getMessages /handle /respond Hv.
Qed.

(* --------------------------------------------------------------------- *)
(* What the writing handlers do to the messages table                    *)
(* --------------------------------------------------------------------- *)

Lemma flagged_from_refl (x : Message.t) : flagged_from x x.
Proof. by rewrite /flagged_from !eqxx !implybb. Qed.

Lemma flagged_fromP (x y : Message.t) :
  reflect
    ([/\ Message.id y = Message.id x,
         Message.sender_id y = Message.sender_id x,
         Message.receiver_id y = Message.receiver_id x,
         Message.message y = Message.message x
       & Message.created_at y = Message.created_at x]
     /\ (Message.deleted_for_sender x -> Message.deleted_for_sender y)
        /\ (Message.deleted_for_receiver x -> Message.deleted_for_receiver y))
    (flagged_from x y).
Proof.
apply: (iffP idP).
  case/and5P=> /eqP Hi /eqP Hs /eqP Hr /eqP Hb.
  case/and3P=> /eqP Hc /implyP Hds /implyP Hdr.
  by split.
case=> [[Hi Hs Hr Hb Hc] [Hds Hdr]].
rewrite /flagged_from Hi Hs Hr Hb Hc !eqxx /=.
by apply/andP; split; apply/implyP.
Qed.

Lemma flagged_from_trans (y x z : Message.t) :
  flagged_from x y -> flagged_from y z -> flagged_from x z.
Proof.
move=> /flagged_fromP [[Hi Hs Hr Hb Hc] [Hds Hdr]].
move=> /flagged_fromP [[Hi' Hs' Hr' Hb' Hc'] [Hds' Hdr']].
apply/flagged_fromP; split; first by split; congruence.
by split=> H; [exact: Hds' (Hds H) | exact: Hdr' (Hdr H)].
Qed.

Lemma flagged_from_mark (x : Message.t) :
  [/\ flagged_from x (mark_both x), flagged_from x (mark_sender x)
    & flagged_from x (mark_receiver x)].
Proof.
by split; rewrite /flagged_from /= !eqxx ?implybT ?implybb.
Qed.

(* Every run of deleteMessage maps the messages table row by row, keeping
   or raising flags. *)
Lemma deleteMessage_effect (r mid : uuid) (body : jsobj) (w : world) :
  exists f : Message.t -> Message.t,
    [/\ users (db (deleteMessage r mid body w).2) = users (db w),
        profiles (db (deleteMessage r mid body w).2) = profiles (db w),
        messages (db (deleteMessage r mid body w).2)
          = [seq f x | x <- messages (db w)]
      & forall x, flagged_from x (f x)].
Proof.
case: w => d fs us t l.
rewrite /deleteMessage /handle; unfold_store; rewrite /=; explore.
all: first
  [ by exists id; split; rewrite ?map_id //; exact: flagged_from_refl
  | by eexists; split; [reflexivity | reflexivity | reflexivity |];
       move=> x /=; have [Hb Hs Hr] := flagged_from_mark x;
       case: ifP => _; rewrite ?flagged_from_refl ].
Qed.

(* Every run of sendMessage leaves the tables alone or appends one row,
   built from the request. *)
Lemma sendMessage_effect (s : uuid) (body : jsobj) (w : world) :
  let out := sendMessage s body w in
  [/\ users (db out.2) = users (db w),
      profiles (db out.2) = profiles (db w)
    & (messages (db out.2) = messages (db w) /\ status out.1 != 201)
      \/ exists m : Message.t,
           [/\ messages (db out.2) = rcons (messages (db w)) m,
               out.1 = json 201 true (str "Message sent successfully")
                         (OneMessage m),
               [/\ Message.id m = next_uuid w, Message.sender_id m = s,
                   get body (str "receiver_id") = JStr (Message.receiver_id m),
                   Message.receiver_id m != s
                 & Message.created_at m = now w],
               Message.message m = trim (string_of (get body (str "message")))
               /\ trim (string_of (get body (str "message"))) != [::]
             & ~~ Message.deleted_for_sender m
               /\ ~~ Message.deleted_for_receiver m]].
Proof.
case: w => d fs us t l.
rewrite /sendMessage /handle /bind /eval.
case Hv: (validateRequiredFields _ _) => [v|msg] /=; last by split=> //; left.
case Hval: (isValid v) => /=; last by split=> //; left.
have [|rs Hrs Hrt] := validate_field (f := str "receiver_id") Hv Hval.
  by rewrite !inE eqxx.
have [|ms Hms Hmt] := validate_field (f := str "message") Hv Hval.
  by rewrite !inE eqxx orbT.
rewrite Hrs Hms /= (negbTE Hmt) /=.
case Hself: (s == rs); unfold_store; rewrite /=; explore.
all: first
  [ by split=> //; left
  | by split=> //; right; eexists; split; [reflexivity | reflexivity | | | ];
       rewrite /= ?[rs == s]eq_sym ?Hself ].
Qed.

Lemma last_rev (x : nat) (s : seq nat) : last x (rev s) = head x s.
Proof. by case: s => [|a s] //; rewrite rev_cons last_rcons. Qed.

Lemma head_rev (x : nat) (s : seq nat) : head x (rev s) = last x s.
Proof. by case/lastP: s => [|s a] //; rewrite rev_rcons last_rcons. Qed.

Lemma trimStart_head (s : jsstring) :
  trimStart s != [::] -> ~~ is_ws (head 0 (trimStart s)).
Proof.
rewrite trimStart_nil -has_predC => Hh; rewrite /trimStart.
move: (Hh); rewrite has_find => Hlt.
by rewrite (drop_nth 0 Hlt) /=; exact: (nth_find 0 Hh).
Qed.

Lemma trimStart_last (s : jsstring) :
  trimStart s != [::] -> last 0 (trimStart s) = last 0 s.
Proof.
rewrite /trimStart last_drop -size_eq0 size_drop subn_eq0 -ltnNge.
by move=> ->.
Qed.

(* What trim answers, when not empty, has no white space at either end. *)
Lemma trim_trimmed (s : jsstring) : trim s != [::] -> trimmed (trim s).
Proof.
rewrite /trimmed /trim /trimEnd => Hne; rewrite Hne /=.
have Hu : trimStart (rev (trimStart s)) != [::].
  by move: Hne; rewrite -!size_eq0 size_rev.
rewrite head_rev last_rev (trimStart_head Hu) andbT.
rewrite (trimStart_last Hu) last_rev; apply: trimStart_head.
by case: (trimStart s) Hu => //; rewrite /trimStart.
Qed.

Lemma flagged_from_well_formed (x y : Message.t) :
  flagged_from x y -> well_formed x -> well_formed y.
Proof.
by move=> /flagged_fromP [[_ _ _ Hb _] _]; rewrite /well_formed Hb.
Qed.

(* One request: old rows kept in place with flags kept or raised, new
   rows appended, each well formed and with both flags down. *)
Lemma serve_effect (w : world) (q : request) :
  exists (f : Message.t -> Message.t) (new : seq Message.t),
    [/\ users (db (serve w q)) = users (db w),
        profiles (db (serve w q)) = profiles (db w),
        messages (db (serve w q)) = [seq f x | x <- messages (db w)] ++ new,
        forall x, flagged_from x (f x)
      & all (fun m => [&& well_formed m, ~~ Message.deleted_for_sender m
                        & ~~ Message.deleted_for_receiver m]) new].
Proof.
case: q => [s body|r mid body] /=.
- have [Hu Hp] := sendMessage_effect s body w.
  case=> [[Hm _]|[m [Hm _ [_ Hs Hr Hne _] [Hb Ht] [Hds Hdr]]]].
    exists id, [::]; split=> //; first by rewrite map_id cats0.
    by move=> x; exact: flagged_from_refl.
  exists id, [:: m]; split=> //; first by rewrite map_id cats1.
    by move=> x; exact: flagged_from_refl.
  by rewrite /= /well_formed Hb (trim_trimmed Ht) Hds Hdr.
- have [f [Hu Hp Hm Hf]] := deleteMessage_effect r mid body w.
  by exists f, [::]; split=> //; rewrite cats0.
Qed.

(** X3: along any sequence of sendMessage and deleteMessage requests,
    whatever the requests and whatever the store answers, users and
    profiles are untouched and the messages table only grows: every row
    that was there is still there, at the same place, with the same id,
    sender, receiver, body and created_at, and with each delete flag that
    was up still up; new rows come after them. *)
Theorem messages_only_grow (qs : seq request) (w : world) :
  exists (f : Message.t -> Message.t) (new : seq Message.t),
    [/\ users (db (serve_all w qs)) = users (db w),
        profiles (db (serve_all w qs)) = profiles (db w),
        messages (db (serve_all w qs))
          = [seq f x | x <- messages (db w)] ++ new
      & forall x, flagged_from x (f x)].
Proof.
rewrite /serve_all; elim: qs w => [|q qs IH] w /=.
  exists id, [::]; split=> //; first by rewrite map_id cats0.
  by move=> x; exact: flagged_from_refl.
have [f1 [new1 [Hu1 Hp1 Hm1 Hf1 _]]] := serve_effect w q.
have [f [new [Hu Hp Hm Hf]]] := IH (serve w q).
exists (f \o f1), (map f new1 ++ new); split.
- by rewrite Hu Hu1.
- by rewrite Hp Hp1.
- by rewrite Hm Hm1 map_cat -map_comp catA.
- by move=> x; exact: flagged_from_trans (Hf1 x) (Hf _).
Qed.

(** X4: sendMessage and deleteMessage keep the stored bodies well
    formed: if every row has a body that is not empty and has no white
    space at either end, the same holds after any sequence of such
    requests, whatever the requests and whatever the store answers.
    (That a row's sender differs from its receiver is not such an
    invariant: the handler compares the two ids as texts.) *)
Theorem messages_stay_well_formed (qs : seq request) (w : world) :
  all well_formed (messages (db w)) ->
  all well_formed (messages (db (serve_all w qs))).
Proof.
rewrite /serve_all; elim: qs w => [|q qs IH] w //= Hw.
apply: IH.
have [f [new [_ _ -> Hf Hnew]]] := serve_effect w q.
rewrite all_cat all_map; apply/andP; split.
  apply/allP => x Hx /=.
  exact: flagged_from_well_formed (Hf x) (allP Hw x Hx).
by apply/allP => m /(allP Hnew) /and3P [].
Qed.

Lemma messages_stay_well_formed_witness :
  let qs := [:: Send Sample.ada (Sample.send_body Sample.bo (str " ok "));
                Delete Sample.bo (str "m1") [::];
                Send Sample.cy (Sample.send_body Sample.cy (str "me"))] in
  all well_formed
      (messages (db (serve_all (Sample.world_of Sample.store) qs))).
Proof.
exact: (@messages_stay_well_formed
          [:: Send Sample.ada (Sample.send_body Sample.bo (str " ok "));
              Delete Sample.bo (str "m1") [::];
              Send Sample.cy (Sample.send_body Sample.cy (str "me"))]
          (Sample.world_of Sample.store) ltac:(by vm_compute)).
Defined.

(* --------------------------------------------------------------------- *)
(* Deleting and the other handlers                                       *)
(* --------------------------------------------------------------------- *)

Section RowMap.

(* A row-by-row change of the messages table that keeps ids, ends, bodies
   and times, as deleteMessage makes. *)
Variable f : Message.t -> Message.t.
Hypothesis f_flags : forall x, flagged_from x (f x).

Lemma rowmap_sender (x : Message.t) :
  Message.sender_id (f x) = Message.sender_id x.
Proof. by have /flagged_fromP [[]] := f_flags x. Qed.

Lemma rowmap_receiver (x : Message.t) :
  Message.receiver_id (f x) = Message.receiver_id x.
Proof. by have /flagged_fromP [[]] := f_flags x. Qed.

Lemma rowmap_created_at (x : Message.t) :
  Message.created_at (f x) = Message.created_at x.
Proof. by have /flagged_fromP [[]] := f_flags x. Qed.

Lemma rowmap_involving (u : uuid) (s : seq Message.t) :
  [seq m <- map f s
  | (Message.sender_id m == u) || (Message.receiver_id m == u)]
    = map f [seq m <- s
            | (Message.sender_id m == u) || (Message.receiver_id m == u)].
Proof.
rewrite filter_map; congr (map f _); apply: eq_filter => x /=.
by rewrite rowmap_sender rowmap_receiver.
Qed.

Lemma rowmap_sort (s : seq Message.t) :
  sort by_created_at (map f s) = map f (sort by_created_at s).
Proof.
apply/esym/map_sort => x y.
by rewrite /by_created_at !rowmap_created_at.
Qed.

Lemma rowmap_conversedUserIds (u : uuid) (s : seq Message.t) :
  conversedUserIds u (map f s) = conversedUserIds u s.
Proof.
rewrite /conversedUserIds; move: [::].
by elim: s => [|x s IH] acc //=; rewrite rowmap_sender rowmap_receiver IH.
Qed.

Lemma rowmap_has_between (a b : uuid) (s : seq Message.t) :
  has (fun m => (Message.sender_id m == a) && (Message.receiver_id m == b))
      (map f s)
    = has (fun m => (Message.sender_id m == a) && (Message.receiver_id m == b))
          s.
Proof.
by rewrite has_map; apply: eq_has => x /=; rewrite rowmap_sender rowmap_receiver.
Qed.

End RowMap.

(** X5: a delete never takes a message out of getMessages.  Whatever the
    delete request and whatever the store answered to it, the list
    getMessages gives afterwards holds the rows of the list it gave
    before, each with its flags kept or raised and nothing else changed,
    and is again ascending by created_at; when no two stored messages
    have the same created_at, it is that list row for row. *)
Theorem getMessages_after_delete (r mid : uuid) (body : jsobj) (w : world)
  (u : uuid) (us : seq uuid) (t : timestamp) (l : seq event) :
  exists (f : Message.t -> Message.t) (L L' : seq Message.t),
    [/\ forall x, flagged_from x (f x),
        (getMessages u u (World (db w) [::] us t l)).1
          = Response 200 true None (MessageList L) None,
        (getMessages u u
           (World (db (deleteMessage r mid body w).2) [::] us t l)).1
          = Response 200 true None (MessageList L') None,
        perm_eq L' (map f L) /\ sorted by_created_at L'
      & {in messages (db w) &, injective Message.created_at} ->
        L' = map f L].
Proof.
have [f [_ _ Hm Hf]] := deleteMessage_effect r mid body w.
exists f; do 2 eexists; split; first exact: Hf.
- by rewrite getMessages_run.
- by rewrite getMessages_run.
- split; last exact: (sort_sorted by_created_at_total).
  by rewrite /= Hm (rowmap_involving Hf) (rowmap_sort Hf).
- by move=> _; rewrite /= Hm (rowmap_involving Hf) (rowmap_sort Hf).
Qed.

(** X6: deleting changes neither who is listed as a contact nor whether a
    message may be sent.  Whatever the delete request and whatever the
    store answered to it, getUsers and sendMessage give afterwards, for
    every requester and every request, the answer they would have given
    before it. *)
Theorem delete_keeps_contacts_and_gate (r mid : uuid) (body : jsobj)
  (w : world) (u : uuid) (b : jsobj) (us : seq uuid) (t : timestamp)
  (l : seq event) :
  let d' := db (deleteMessage r mid body w).2 in
  (getUsers u (World d' [::] us t l)).1
    = (getUsers u (World (db w) [::] us t l)).1
  /\ (sendMessage u b (World d' [::] us t l)).1
     = (sendMessage u b (World (db w) [::] us t l)).1.
Proof.
have [f [Hu Hp Hm Hf]] := deleteMessage_effect r mid body w.
move=> d'; move: Hu Hp Hm; rewrite -/d'.
case: d' (db w) => us1 ps1 ms1 [us0 ps0 ms0] /= -> -> ->; split.
- rewrite /getUsers /handle; unfold_store; rewrite /=.
  case: (single _) => [cur|e] //=.
  case: (_ == HOUSEKEEPER) => //=.
  case: (_ == OWNER) => //=.
  rewrite (rowmap_involving Hf) (rowmap_conversedUserIds Hf).
  by case: (0 < size _).
- rewrite /sendMessage /handle /bind /eval.
  case: (validateRequiredFields _ _) => [v|m] //=.
  case: (isValid v) => //=.
  case: (call_trim _) => [tr|m] //=.
  case: (~~ _) => //=.
  unfold_store; rewrite /=.
  case: (single _) => [ru|e] //=.
  case: (strict_eq u _) => //=.
  case: (single _) => [sp|e] //=.
  case: (_ == OWNER) => //=.
  case: (single _) => [rp|e] //=.
  case: (_ == HOUSEKEEPER) => //=.
  rewrite !limit1_has.
  set p1 := (fun m => _ && strict_eq _ _); set p2 := (fun m => _ && _).
  have -> : has p1 (map f ms0) = has p1 ms0.
    rewrite has_map; apply: eq_has => x.
    by rewrite /p1 /= (rowmap_sender Hf) (rowmap_receiver Hf).
  have -> : has p2 (map f ms0) = has p2 ms0.
    rewrite has_map; apply: eq_has => x.
    by rewrite /p2 /= (rowmap_sender Hf) (rowmap_receiver Hf).
  by case: (has p1 ms0 || has p2 ms0).
Qed.

(* --------------------------------------------------------------------- *)
(* sendMessage: sequences and refusals                                   *)
(* --------------------------------------------------------------------- *)

(** X7: once a housekeeper has written to an owner, the owner may write
    back.  Without store failures, and whatever messages existed before,
    a housekeeper's message to an owner is stored and answered 201, and
    the owner's next message to that housekeeper is stored and answered
    201 as well; the two rows are appended in that order. *)
Theorem reply_after_contact (h o t1 t2 : jsstring) (body1 body2 : jsobj)
  (d : database) (us : seq uuid) (t : timestamp) (l : seq event)
  (hu ou : User.t) (hp op : Profile.t) :
  [/\ get body1 (str "receiver_id") = JStr o,
      get body1 (str "message") = JStr t1,
      get body2 (str "receiver_id") = JStr h
    & get body2 (str "message") = JStr t2] ->
  [/\ trim o != [::], trim t1 != [::], trim h != [::] & trim t2 != [::]] ->
  [seq x <- users d | User.id x == h] = [:: hu] ->
  [seq x <- users d | User.id x == o] = [:: ou] ->
  h != o ->
  [seq p <- profiles d | Profile.user_id p == h] = [:: hp] ->
  Profile.role hp = HOUSEKEEPER ->
  [seq p <- profiles d | Profile.user_id p == o] = [:: op] ->
  Profile.role op = OWNER ->
  let first := sendMessage h body1 (World d [::] us t l) in
  let second := sendMessage o body2 first.2 in
  let m1 := Message.Mk (head [::] us) h o (trim t1) false false t in
  let m2 := Message.Mk (head [::] (behead us)) o h (trim t2) false false t in
  [/\ first.1 = json 201 true (str "Message sent successfully")
                  (OneMessage m1),
      second.1 = json 201 true (str "Message sent successfully")
                   (OneMessage m2)
    & messages (db second.2) = messages d ++ [:: m1; m2]].
Proof.
move=> [Hr1 Hm1 Hr2 Hm2] [Ho Ht1 Hh Ht2] Hhu Hou Hne Hhp Hhr Hop Hor.
move=> first second m1 m2.
have Hfirst : first
    = (json 201 true (str "Message sent successfully") (OneMessage m1),
       World (Database (users d) (profiles d) (rcons (messages d) m1)) [::]
         (behead us) t
         (l ++ [:: select_ok Users; select_ok Profiles;
                   Event (OpInsert Messages (head [::] us)) false])).
  rewrite /first /sendMessage /handle /bind /eval /=.
  rewrite Hr1 Hm1 /= (negbTE Ho) (negbTE Ht1) (trim_nonempty Ho)
          (trim_nonempty Ht1) /=.
  unfold_store; rewrite /= Hou /= (negbTE Hne) /= Hhp /= Hhr /=.
  by rewrite /next_uuid /= -!cats1 -!catA.
have Hsecond : second
    = (json 201 true (str "Message sent successfully") (OneMessage m2),
       World (Database (users d) (profiles d)
                (rcons (rcons (messages d) m1) m2)) [::]
         (behead (behead us)) t (log second.2)).
  rewrite /second Hfirst /sendMessage /handle /bind /eval /=.
  rewrite Hr2 Hm2 /= (negbTE Hh) (negbTE Ht2) (trim_nonempty Hh)
          (trim_nonempty Ht2) /=.
  unfold_store; rewrite /= Hhu /= eq_sym (negbTE Hne) /= Hop /= Hor /=.
  rewrite ?eqxx /= Hhp /= Hhr ?eqxx /= !limit1_has !has_rcons /= !eqxx /=.
  by rewrite orbT /=.
by rewrite Hsecond Hfirst /= -!cats1 -catA.
Qed.

Lemma reply_after_contact_witness :
  let first :=
    sendMessage Sample.bo (Sample.send_body Sample.cy (str "hello"))
      (World Sample.quiet [::] [:: str "n1"; str "n2"] 9 [::]) in
  let second :=
    sendMessage Sample.cy (Sample.send_body Sample.bo (str "yes?")) first.2 in
  let m1 := Message.Mk (str "n1") Sample.bo Sample.cy (str "hello")
              false false 9 in
  let m2 := Message.Mk (str "n2") Sample.cy Sample.bo (str "yes?")
              false false 9 in
  [/\ first.1 = json 201 true (str "Message sent successfully")
                  (OneMessage m1),
      second.1 = json 201 true (str "Message sent successfully")
                   (OneMessage m2)
    & messages (db second.2) = [:: m1; m2]].
Proof.
exact: (@reply_after_contact Sample.bo Sample.cy (str "hello") (str "yes?")
          (Sample.send_body Sample.cy (str "hello"))
          (Sample.send_body Sample.bo (str "yes?"))
          Sample.quiet [:: str "n1"; str "n2"] 9 [::]
          (User.Mk Sample.bo (str "bo@x.io") (str "pw-bo") 2)
          (User.Mk Sample.cy (str "cy@x.io") (str "pw-cy") 3)
          (Profile.Mk (str "p2") Sample.bo (str "Bo") HOUSEKEEPER 2)
          (Profile.Mk (str "p3") Sample.cy (str "Cy") OWNER 3)
          ltac:(by split; vm_compute) ltac:(by split; vm_compute)
          ltac:(by vm_compute) ltac:(by vm_compute) ltac:(by vm_compute)
          ltac:(by vm_compute) ltac:(by vm_compute) ltac:(by vm_compute)
          ltac:(by vm_compute)).
Defined.

Lemma hex_digit_not_ws (c : nat) : hex_digit c -> ~~ is_ws c.
Proof.
have H : all (fun k => hex_digit k ==> ~~ is_ws k) (iota 0 103).
  by vm_compute.
move=> Hh; have Hc : c < 103.
  by case/orP: Hh => /andP [_ Hle]; apply: leq_ltn_trans Hle _.
by have := allP H c; rewrite mem_iota /= add0n Hc Hh => /(_ isT).
Qed.

(* An id in the store's written form is not blank. *)
Lemma canonical_uuid_filled (s : jsstring) :
  canonical_uuid s -> trim s != [::].
Proof.
rewrite trim_nil /canonical_uuid; case: s => [|c s] //= /andP [_].
rewrite /= => /andP [Hc _]; apply/negP => /andP [Hw _].
by move: (hex_digit_not_ws Hc); rewrite Hw.
Qed.

(** X8: a message to a missing user or to oneself is refused before any
    profile is read, whatever the roles.  For a receiver_id written as
    the store writes ids (for other spellings the handler and the store
    do not compare alike, and nothing is said), with a message that is
    not blank and without store failures, sendMessage answers 404 when
    the users table does not hold exactly one row with that id, and 400
    when the id is the sender's own; in both cases the store is as it
    was and the only call made is the look-up of the receiver. *)
Theorem sendMessage_self_or_missing (sender receiver text : jsstring)
  (body : jsobj) (d : database) (us : seq uuid) (t : timestamp)
  (l : seq event) :
  get body (str "receiver_id") = JStr receiver ->
  get body (str "message") = JStr text ->
  canonical_uuid receiver ->
  trim text != [::] ->
  let found := [seq x <- users d | User.id x == receiver] in
  (size found != 1 ->
   sendMessage sender body (World d [::] us t l)
     = (json 404 false (str "Receiver not found") NoData,
        World d [::] us t (l ++ [:: Event (OpSelect Users) true])))
  /\ (size found = 1 -> sender = receiver ->
      sendMessage sender body (World d [::] us t l)
        = (json 400 false (str "Cannot send message to yourself") NoData,
           World d [::] us t (l ++ [:: select_ok Users]))).
Proof.
move=> Hr Hm Hc Hmt found.
have Hrt : trim receiver != [::] by exact: canonical_uuid_filled.
rewrite /sendMessage /handle /bind /eval /=.
rewrite Hr Hm /= (negbTE Hrt) (negbTE Hmt) (trim_nonempty Hrt)
        (trim_nonempty Hmt) /=.
unfold_store; rewrite /= -/found; split.
- by case: found => [|x [|y ys]] //= _; rewrite cats1.
- case: found => [|x [|y ys]] //= _ ->.
  by rewrite eqxx /= cats1.
Qed.

Lemma sendMessage_self_or_missing_witness :
  sendMessage Sample.ann (Sample.send_body Sample.ann (str "note"))
    (Sample.world_of Sample.register)
    = (json 400 false (str "Cannot send message to yourself") NoData,
       World Sample.register [::] [:: str "n1"; str "n2"] 9
         [:: select_ok Users])
  /\ sendMessage Sample.ann (Sample.send_body Sample.nobody (str "note"))
       (Sample.world_of Sample.register)
     = (json 404 false (str "Receiver not found") NoData,
        World Sample.register [::] [:: str "n1"; str "n2"] 9
          [:: Event (OpSelect Users) true]).
Proof.
split.
- have [_ H] :=
    @sendMessage_self_or_missing Sample.ann Sample.ann (str "note")
      (Sample.send_body Sample.ann (str "note")) Sample.register
      [:: str "n1"; str "n2"] 9 [::]
      ltac:(by vm_compute) ltac:(by vm_compute) ltac:(by vm_compute)
      ltac:(by vm_compute).
  exact: (H ltac:(by vm_compute) ltac:(by vm_compute)).
- have [H _] :=
    @sendMessage_self_or_missing Sample.ann Sample.nobody (str "note")
      (Sample.send_body Sample.nobody (str "note")) Sample.register
      [:: str "n1"; str "n2"] 9 [::]
      ltac:(by vm_compute) ltac:(by vm_compute) ltac:(by vm_compute)
      ltac:(by vm_compute).
  exact: (H ltac:(by vm_compute)).
Defined.

(* --------------------------------------------------------------------- *)
(* validateRequiredFields                                                *)
(* --------------------------------------------------------------------- *)

Lemma filled_in_not_left_out (v : jsval) : filled_in v -> ~~ left_out v.
Proof.
case: v => [| |b|n|s|] //= Hs; rewrite negb_or negbK (negbTE Hs) andbT.
by case: s Hs.
Qed.

(* One step of the loop, by the kind of the field's value. *)
Lemma validate_step (data : jsobj) (f : jsstring) (fields : seq jsstring) :
  validateRequiredFields data (f :: fields)
    = if filled_in (get data f) then validateRequiredFields data fields
      else if left_out (get data f)
      then Returns (Validation false (Some (f ++ str " is required")))
      else Throws (str "data[field].trim is not a function").
Proof.
rewrite /=; case: (get data f) => [| |[]|[|n]|s|] //.
rewrite /call_trim /filled_in /left_out /truthy trim_nil.
by case Hs: (all is_ws s); rewrite /= ?orbT ?orbF; case: s Hs.
Qed.

Lemma validate_filled (data : jsobj) (pre fields : seq jsstring) :
  all (fun g => filled_in (get data g)) pre ->
  validateRequiredFields data (pre ++ fields)
    = validateRequiredFields data fields.
Proof.
elim: pre => [|g pre IH] //= /andP [Hg Hpre].
by rewrite -/(validateRequiredFields data (g :: pre ++ fields))
           validate_step Hg IH.
Qed.

Lemma validate_all_filled (data : jsobj) (fields : seq jsstring) :
  all (fun g => filled_in (get data g)) fields ->
  validateRequiredFields data fields = Returns (Validation true None).
Proof. by move=> H; rewrite -[fields]cats0 validate_filled. Qed.

(** X9: what validateRequiredFields answers is decided by the first field
    that is not filled in.  It answers valid exactly when every field
    reads as a string with a character that is not white space.
    Otherwise, if the first other field reads as undefined, null, false,
    0, empty or white space only, it answers '<field> is required' for
    that field; and if it reads as a truthy value that is not a string
    (a number, true, an object, or what a name such as constructor
    inherits when the body has no property of that name) the call throws
    instead of answering. *)
Theorem validateRequiredFields_outcome (data : jsobj) :
  (forall fields,
     (validateRequiredFields data fields = Returns (Validation true None))
     <-> all (fun g => filled_in (get data g)) fields)
  /\ (forall pre f post,
        all (fun g => filled_in (get data g)) pre ->
        ~~ filled_in (get data f) ->
        validateRequiredFields data (pre ++ f :: post)
          = if left_out (get data f)
            then Returns (Validation false (Some (f ++ str " is required")))
            else Throws (str "data[field].trim is not a function")).
Proof.
split.
- move=> fields; split; last exact: validate_all_filled.
  elim: fields => [|f fields IH] //; rewrite validate_step /=.
  case: (filled_in (get data f)) => //=.
  by case: (left_out (get data f)).
- move=> pre f post Hpre Hf.
  by rewrite (validate_filled _ Hpre) validate_step (negbTE Hf).
Qed.

Lemma validateRequiredFields_outcome_witness :
  let data := [:: (str "email", JStr (str "a@b.co"));
                  (str "password", JNum 123456);
                  (str "name", JStr (str "  "))] in
  [/\ validateRequiredFields data
        [:: str "email"; str "password"; str "name"]
        = Throws (str "data[field].trim is not a function"),
      validateRequiredFields data
        [:: str "email"; str "name"; str "password"]
        = Returns (Validation false (Some (str "name is required"))),
      validateRequiredFields data [:: str "email"; str "role"]
        = Returns (Validation false (Some (str "role is required")))
    & validateRequiredFields data [:: str "email"; str "constructor"]
        = Throws (str "data[field].trim is not a function")].
Proof.
move=> data; have [_ H] := validateRequiredFields_outcome data; split.
- exact: (H [:: str "email"] (str "password") [:: str "name"]
            (erefl _) (erefl _)).
- exact: (H [:: str "email"] (str "name") [:: str "password"]
            (erefl _) (erefl _)).
- exact: (H [:: str "email"] (str "role") [::] (erefl _) (erefl _)).
- exact: (H [:: str "email"] (str "constructor") [::] (erefl _) (erefl _)).
Defined.

(** X10: a required field sent as a number, as true or as an object is
    answered 500, not 400, and no store call is made: sendMessage for
    such a message (after a filled-in receiver_id), signup and login for
    such a password (after a filled-in email), in every world. *)
Theorem non_string_field_is_500
  (hashPassword : jsstring -> jsstring)
  (comparePassword : jsstring -> jsstring -> bool)
  (generateToken : uuid -> jsstring -> jsstring -> jsstring)
  (toLowerCase : jsstring -> jsstring)
  (sender : uuid) (body : jsobj) (w : world) :
  let odd v := ~~ filled_in v && ~~ left_out v in
  let thrown := Some (str "data[field].trim is not a function") in
  (filled_in (get body (str "receiver_id")) ->
   odd (get body (str "message")) ->
   sendMessage sender body w
     = (Response 500 false (Some (str "Error sending message")) NoData
          thrown, w))
  /\ (filled_in (get body (str "email")) ->
      odd (get body (str "password")) ->
      signup hashPassword generateToken toLowerCase body w
        = (Response 500 false (Some (str "Error registering user")) NoData
             thrown, w)
      /\ login comparePassword generateToken toLowerCase body w
         = (Response 500 false (Some (str "Error logging in")) NoData
              thrown, w)).
Proof.
move=> odd thrown.
have Hthrow : forall a b post,
    filled_in (get body a) -> odd (get body b) ->
    validateRequiredFields body (a :: b :: post)
      = Throws (str "data[field].trim is not a function").
  move=> a b post Ha /andP [Hb1 Hb2].
  by rewrite !validate_step Ha (negbTE Hb1) (negbTE Hb2).
split=> Ha Hb.
- by rewrite /sendMessage /handle /bind /eval (Hthrow _ _ _ Ha Hb).
- split.
    by rewrite /signup /handle /bind /eval (Hthrow _ _ _ Ha Hb).
  by rewrite /login /handle /bind /eval (Hthrow _ _ _ Ha Hb).
Qed.

Lemma non_string_field_is_500_witness :
  let body := [:: (str "receiver_id", JStr (str "u2"));
                  (str "message", JNum 42)] in
  let w := World (Database [::] [::] [::]) [::] [::] 0 [::] in
  sendMessage (str "u1") body w
    = (Response 500 false (Some (str "Error sending message")) NoData
         (Some (str "data[field].trim is not a function")), w).
Proof.
move=> body w.
have [H _] :=
  @non_string_field_is_500 id (fun _ _ => true) (fun a _ _ => a) id
    (str "u1") body w.
exact: (H (erefl _) (erefl _)).
Defined.

(* --------------------------------------------------------------------- *)
(* isValidEmail                                                          *)
(* --------------------------------------------------------------------- *)

Lemma split_at (x : nat) (s : seq nat) :
  x \in s -> s = take (index x s) s ++ x :: drop (index x s).+1 s.
Proof.
move=> Hx; rewrite -{1}(cat_take_drop (index x s) s).
by rewrite (drop_nth 0) ?index_mem // nth_index.
Qed.

Lemma email_char_not_AT (s : jsstring) : all email_char s -> AT \notin s.
Proof.
move=> /allP H; apply/negP => /H.
by rewrite /email_char eqxx andbF.
Qed.

(** X11: isValidEmail accepts exactly the strings of the shape
    local@domain.rest written with no white space and no further '@':
    a non-empty A, an '@', a non-empty B, a '.', a non-empty C, where A,
    B and C hold neither white space nor '@' (B and C may hold dots). *)
Theorem isValidEmail_shape (e : jsstring) :
  reflect
    (exists A B C : jsstring,
       [/\ e = A ++ AT :: B ++ DOT :: C,
           [/\ A != [::], B != [::] & C != [::]],
           all email_char A, all email_char B & all email_char C])
    (isValidEmail e).
Proof.
apply: (iffP idP).
- rewrite /isValidEmail.
  set i := index AT e; set D := drop i.+1 e.
  case/and5P=> Hi0 Hi Hl Hd Hdot.
  have He : e = take i e ++ AT :: D.
    by apply: split_at; rewrite -index_mem.
  case HD: D Hdot Hd => [|d0 X] //= Hdot /andP [Hd0 HX].
  have Hj := index_ltn Hdot.
  have HinX : DOT \in X := mem_take Hdot.
  set j := index DOT X in Hj.
  exists (take i e), (d0 :: take j X), (drop j.+1 X); split.
  + by rewrite {1}He HD; congr (_ ++ (_ :: _ :: _)); exact: split_at.
  + split=> //; first by rewrite -size_eq0 size_take Hi -lt0n.
    rewrite -size_eq0 size_drop subn_eq0 -ltnNge.
    by case: (size X) Hj => [|n] //=; rewrite ltnS.
  + exact: Hl.
  + rewrite /= Hd0 /=; move: HX; rewrite {1}(split_at HinX) all_cat.
    by case/andP.
  + move: HX; rewrite {1}(split_at HinX) all_cat -cat1s all_cat.
    by case/and3P.
- case=> A [B [C [-> [HA HB HC] HcA HcB HcC]]].
  have HnA := email_char_not_AT HcA.
  rewrite /isValidEmail (index_pivot _ HnA) (take_size_cat _ (erefl _)).
  have -> : drop (size A).+1 (A ++ AT :: B ++ DOT :: C) = B ++ DOT :: C.
    by rewrite -cat_rcons -(size_rcons A AT) drop_size_cat.
  rewrite lt0n size_eq0 HA HcA size_cat /= -addSnnS ltn_addr //=.
  rewrite all_cat HcB /= HcC /=.
  case: B HB {HcB} => [|b0 B] //= _.
  rewrite size_cat /= addnS /= take_cat ltnNge leq_addr /=.
  rewrite addKn mem_cat; apply/orP; right.
  by case: C HC {HcC} => [|c0 C] //= _; rewrite mem_head.
Qed.

(* --------------------------------------------------------------------- *)
(* signup and login                                                      *)
(* --------------------------------------------------------------------- *)

Lemma isValidEmail_filled (e : jsstring) :
  isValidEmail e -> filled_in (JStr e).
Proof.
case/and5P=> Hi _ Hl _ _ /=.
case: e Hi Hl => [|c e] //=; case: ifP => //= _ _ /andP [].
by rewrite /email_char => /andP [/negbTE ->].
Qed.

Lemma isValidRole_filled (r : jsstring) : isValidRole r -> filled_in (JStr r).
Proof. by case/orP=> /eqP ->. Qed.

Lemma trim_filled (s : jsstring) : trim s != [::] -> filled_in (JStr s).
Proof. by rewrite trim_nil. Qed.

Section SignupLogin.

Variable hashPassword : jsstring -> jsstring.
Variable comparePassword : jsstring -> jsstring -> bool.
Variable generateToken : uuid -> jsstring -> jsstring -> jsstring.
Variable toLowerCase : jsstring -> jsstring.

(* jwt.sign at the instant of a later request. *)
Variable generateTokenLater : uuid -> jsstring -> jsstring -> jsstring.

(* One run of signup for an acceptable request and an unused email, when
   the store does not fail. *)
Lemma signup_run (body : jsobj) (e p n r : jsstring) (d : database)
  (us : seq uuid) (t : timestamp) (l : seq event) :
  acceptable body e p n r ->
  [seq u <- users d | User.email u == toLowerCase e] = [::] ->
  let uid := head [::] us in
  let pid := head [::] (behead us) in
  let user := User.Mk uid (toLowerCase e) (hashPassword p) t in
  let profile := Profile.Mk pid uid (trim n) r t in
  signup hashPassword generateToken toLowerCase body (World d [::] us t l)
    = (json 201 true (str "User registered successfully")
         (SessionData
            (Session uid (toLowerCase e) (trim n) r t
               (generateToken uid (toLowerCase e) r))),
       World (Database (rcons (users d) user) (rcons (profiles d) profile)
                (messages d))
             [::] (behead (behead us)) t
             (l ++ [:: Event (OpSelect Users) true;
                       Event (OpInsert Users uid) false;
                       Event (OpInsert Profiles pid) false])).
Proof.
move=> [[He Hp Hn Hr] [Ve Vp Tp Tn Vr]] Hnew uid pid user profile.
rewrite /signup /handle /bind /eval.
have -> : validateRequiredFields body
            [:: str "email"; str "password"; str "name"; str "role"]
          = Returns (Validation true None).
  apply: validate_all_filled.
  by rewrite /all He Hp Hn Hr (isValidEmail_filled Ve) (trim_filled Tp)
             (trim_filled Tn) (isValidRole_filled Vr).
rewrite /= He Hp Hn Hr /= Ve Vp Vr /=.
unfold_store; rewrite /= Hnew /=.
by rewrite /next_uuid /= -!cats1 -!catA.
Qed.

(** X12: registering and then logging in.  Without store failures, for a
    request whose fields pass the validators, an email no user has yet
    and a new user id no profile refers to, signup answers 201 and stores
    the email in lower case, the hashed password and the trimmed name;
    a later login with the same email and password answers 200 with a
    session of the same id, email, name, role and creation time, and
    leaves the store as signup left it, provided comparePassword accepts
    a password against its own hash.  Each of the two tokens is signed at
    its own request, from the id, the email and the role; they need not
    be the same. *)
Theorem signup_then_login (body : jsobj) (e p n r : jsstring)
  (d : database) (us us' : seq uuid) (t t' : timestamp) (l l' : seq event) :
  acceptable body e p n r ->
  [seq u <- users d | User.email u == toLowerCase e] = [::] ->
  [seq q <- profiles d | Profile.user_id q == head [::] us] = [::] ->
  comparePassword p (hashPassword p) ->
  let first :=
    signup hashPassword generateToken toLowerCase body
      (World d [::] us t l) in
  let second :=
    login comparePassword generateTokenLater toLowerCase body
      (World (db first.2) [::] us' t' l') in
  let session_with := Session (head [::] us) (toLowerCase e) (trim n) r t in
  [/\ first.1
        = json 201 true (str "User registered successfully")
            (SessionData
               (session_with
                  (generateToken (head [::] us) (toLowerCase e) r))),
      users (db first.2)
        = rcons (users d)
            (User.Mk (head [::] us) (toLowerCase e) (hashPassword p) t),
      second.1
        = json 200 true (str "Login successful")
            (SessionData
               (session_with
                  (generateTokenLater (head [::] us) (toLowerCase e) r)))
    & db second.2 = db first.2].
Proof.
move=> Hok Hnew Hfresh Hcmp first second session_with.
have Hfirst := signup_run us t l Hok Hnew.
move: Hok => [[He Hp Hn Hr] [Ve Vp Tp Tn Vr]].
rewrite /second /first Hfirst /=; split=> //.
- rewrite /login /handle /bind /eval.
  have -> : validateRequiredFields body [:: str "email"; str "password"]
            = Returns (Validation true None).
    apply: validate_all_filled.
    by rewrite /all He Hp (isValidEmail_filled Ve) (trim_filled Tp).
  rewrite /= He Hp /= Ve /=; unfold_store.
  by rewrite /= filter_rcons /= eqxx Hnew /= Hcmp /= filter_rcons /= eqxx
             Hfresh /=.
- rewrite /login /handle /bind /eval.
  have -> : validateRequiredFields body [:: str "email"; str "password"]
            = Returns (Validation true None).
    apply: validate_all_filled.
    by rewrite /all He Hp (isValidEmail_filled Ve) (trim_filled Tp).
  rewrite /= He Hp /= Ve /=; unfold_store.
  by rewrite /= filter_rcons /= eqxx Hnew /= Hcmp /= filter_rcons /= eqxx
             Hfresh /=.
Qed.

(** X13: an address registers once, whatever its letter case.  After a
    signup that succeeded, a second signup whose email has the same lower
    case form is answered 409 after the one look-up, and stores
    nothing. *)
Theorem signup_twice (body body2 : jsobj) (e p n r e2 p2 n2 r2 : jsstring)
  (d : database) (us us' : seq uuid) (t t' : timestamp) (l l' : seq event) :
  acceptable body e p n r ->
  acceptable body2 e2 p2 n2 r2 ->
  toLowerCase e2 = toLowerCase e ->
  [seq u <- users d | User.email u == toLowerCase e] = [::] ->
  let first :=
    signup hashPassword generateToken toLowerCase body
      (World d [::] us t l) in
  status first.1 = 201
  /\ signup hashPassword generateToken toLowerCase body2
       (World (db first.2) [::] us' t' l')
     = (json 409 false (str "User with this email already exists") NoData,
        World (db first.2) [::] us' t' (l' ++ [:: select_ok Users])).
Proof.
move=> Hok Hok2 Hlow Hnew first.
rewrite /first (signup_run us t l Hok Hnew) /=; split=> //.
move: Hok2 => [[He Hp Hn Hr] [Ve Vp Tp Tn Vr]].
rewrite /signup /handle /bind /eval.
have -> : validateRequiredFields body2
            [:: str "email"; str "password"; str "name"; str "role"]
          = Returns (Validation true None).
  apply: validate_all_filled.
  by rewrite /all He Hp Hn Hr (isValidEmail_filled Ve) (trim_filled Tp)
             (trim_filled Tn) (isValidRole_filled Vr).
rewrite /= He Hp Hn Hr /= Ve Vp Vr /=; unfold_store.
by rewrite /= Hlow filter_rcons /= eqxx Hnew /= cats1.
Qed.

(** X14: signup keeps the roles of the profiles table within owner and
    housekeeper: if every profile has one of the two roles, so has every
    profile after any signup request, whatever the request and whatever
    the store answers. *)
Theorem signup_keeps_roles (body : jsobj) (w : world) :
  all (fun q => isValidRole (Profile.role q)) (profiles (db w)) ->
  all (fun q => isValidRole (Profile.role q))
      (profiles
         (db (signup hashPassword generateToken toLowerCase body w).2)).
Proof.
case: w => d fs us t l /= Hall.
rewrite /signup /handle /bind /eval.
case: (validateRequiredFields _ _) => [v|m] //=.
case: (isValid v) => //=.
case: (isValidEmail _) => //=.
case: (isValidPassword _) => //=.
case Hrole: (isValidRole _) => //=.
unfold_store; rewrite /=; explore => //.
all: rewrite ?all_filter ?all_rcons /= ?Hrole ?Hall //.
all: by apply/allP => q Hq; apply/implyP => _;
        move: q Hq; apply/allP; rewrite ?all_rcons /= ?Hrole.
Qed.

(** X15: without store failures, signup keeps the stored emails pairwise
    distinct. *)
Theorem signup_keeps_emails_distinct (body : jsobj) (d : database)
  (us : seq uuid) (t : timestamp) (l : seq event) :
  uniq [seq User.email u | u <- users d] ->
  uniq [seq User.email u
       | u <- users
                (db (signup hashPassword generateToken toLowerCase body
                       (World d [::] us t l)).2)].
Proof.
move=> Hu; rewrite /signup /handle /bind /eval.
case: (validateRequiredFields _ _) => [v|m] //=.
case: (isValid v) => //=.
case: (isValidEmail _) => //=.
case: (isValidPassword _) => //=.
case: (isValidRole _) => //=.
unfold_store; rewrite /=.
set low := toLowerCase _.
case Hf: [seq u <- users d | User.email u == low] => [|u0 [|u1 rest]] //=.
- rewrite map_rcons rcons_uniq Hu andbT /=.
  apply/mapP => -[x Hx Hlow].
  have: x \in [seq u <- users d | User.email u == low].
    by rewrite mem_filter Hx -Hlow eqxx.
  by rewrite Hf.
- have Hsub : subseq [:: u0, u1 & rest] (users d).
    by rewrite -Hf; exact: filter_subseq.
  have Huniq := subseq_uniq (map_subseq User.email Hsub) Hu.
  have /allP Hall : all (fun u => User.email u == low) [:: u0, u1 & rest].
    by rewrite -Hf; exact: filter_all.
  have H1 : u1 \in [:: u0, u1 & rest] by rewrite !inE eqxx orbT.
  move: Huniq.
  by rewrite /= inE (eqP (Hall u0 (mem_head _ _))) (eqP (Hall u1 H1)) eqxx.
Qed.

(** X16: login does not tell an unknown address from a wrong password.
    Without store failures, for a well-formed request, a store with no
    single user of that address and a store where the user exists but
    comparePassword rejects the password get the same answer: 401
    'Invalid email or password', with no session. *)
Theorem login_no_enumeration (body : jsobj) (e p : jsstring)
  (d1 d2 : database) (us : seq uuid) (t : timestamp) (l : seq event)
  (u : User.t) :
  get body (str "email") = JStr e ->
  get body (str "password") = JStr p ->
  isValidEmail e ->
  trim p != [::] ->
  size [seq x <- users d1 | User.email x == toLowerCase e] != 1 ->
  [seq x <- users d2 | User.email x == toLowerCase e] = [:: u] ->
  ~~ comparePassword p (User.password u) ->
  let unknown :=
    login comparePassword generateToken toLowerCase body
      (World d1 [::] us t l) in
  let wrong :=
    login comparePassword generateToken toLowerCase body
      (World d2 [::] us t l) in
  unknown.1 = json 401 false (str "Invalid email or password") NoData
  /\ wrong.1 = unknown.1.
Proof.
move=> He Hp Ve Tp Hnone Hone Hbad unknown wrong.
have Hval : validateRequiredFields body [:: str "email"; str "password"]
            = Returns (Validation true None).
  apply: validate_all_filled.
  by rewrite /all He Hp (isValidEmail_filled Ve) (trim_filled Tp).
have Hunknown :
    unknown.1 = json 401 false (str "Invalid email or password") NoData.
  rewrite /unknown /login /handle /bind /eval Hval /= He Hp /= Ve /=.
  unfold_store; rewrite /=.
  by case: [seq x <- _ | _] Hnone => [|x [|y ys]].
split=> //; rewrite Hunknown.
rewrite /wrong /login /handle /bind /eval Hval /= He Hp /= Ve /=.
by unfold_store; rewrite /= Hone /= (negbTE Hbad).
Qed.

(** X17: login reads the address through toLowerCase only.  Two requests
    with the same password whose valid addresses have the same lower case
    form get, in every world, the same answer and leave the same
    world. *)
Theorem login_ignores_case (body1 body2 : jsobj) (e1 e2 : jsstring)
  (w : world) :
  get body1 (str "email") = JStr e1 ->
  get body2 (str "email") = JStr e2 ->
  get body1 (str "password") = get body2 (str "password") ->
  isValidEmail e1 -> isValidEmail e2 ->
  toLowerCase e1 = toLowerCase e2 ->
  login comparePassword generateToken toLowerCase body1 w
    = login comparePassword generateToken toLowerCase body2 w.
Proof.
move=> H1 H2 Hpw V1 V2 Hlow.
rewrite /login /handle /bind /eval !validate_step H1 H2 Hpw.
rewrite (isValidEmail_filled V1) (isValidEmail_filled V2) /=.
by rewrite V1 V2 Hlow.
Qed.

End SignupLogin.

Lemma signup_then_login_witness :
  let body := Sample.signup_body (str "Dee@X.io") (str "secret1")
                (str " Dee ") (str "owner") in
  let first :=
    signup Sample.hash Sample.token Sample.lower body
      (World Sample.store [::] [:: str "n1"; str "n2"] 9 [::]) in
  let second :=
    login Sample.compare Sample.token_later Sample.lower body
      (World (db first.2) [::] [::] 10 [::]) in
  let session_with :=
    Session (str "n1") (str "dee@x.io") (str "Dee") (str "owner") 9 in
  [/\ first.1
        = json 201 true (str "User registered successfully")
            (SessionData
               (session_with
                  (Sample.token (str "n1") (str "dee@x.io") (str "owner")))),
      users (db first.2)
        = rcons (users Sample.store)
            (User.Mk (str "n1") (str "dee@x.io") (str "secret1") 9),
      second.1
        = json 200 true (str "Login successful")
            (SessionData
               (session_with
                  (Sample.token_later (str "n1") (str "dee@x.io")
                     (str "owner"))))
    & db second.2 = db first.2].
Proof.
exact: (@signup_then_login Sample.hash Sample.compare Sample.token
          Sample.lower Sample.token_later
          (Sample.signup_body (str "Dee@X.io") (str "secret1")
             (str " Dee ") (str "owner"))
          (str "Dee@X.io") (str "secret1") (str " Dee ") (str "owner")
          Sample.store [:: str "n1"; str "n2"] [::] 9 10 [::] [::]
          ltac:(by split; split; vm_compute)
          ltac:(by vm_compute) ltac:(by vm_compute) ltac:(by vm_compute)).
Defined.

Lemma signup_twice_witness :
  let body := Sample.signup_body (str "dee@x.io") (str "secret1")
                (str "Dee") (str "owner") in
  let body2 := Sample.signup_body (str "DEE@X.IO") (str "another2")
                 (str "Dee Two") (str "housekeeper") in
  let first :=
    signup Sample.hash Sample.token Sample.lower body
      (Sample.world_of Sample.store) in
  status first.1 = 201
  /\ signup Sample.hash Sample.token Sample.lower body2
       (World (db first.2) [::] [::] 10 [::])
     = (json 409 false (str "User with this email already exists") NoData,
        World (db first.2) [::] [::] 10 [:: select_ok Users]).
Proof.
move=> body body2 first.
exact: (@signup_twice Sample.hash Sample.token Sample.lower body body2
          (str "dee@x.io") (str "secret1") (str "Dee") (str "owner")
          (str "DEE@X.IO") (str "another2") (str "Dee Two")
          (str "housekeeper")
          Sample.store [:: str "n1"; str "n2"] [::] 9 10 [::] [::]
          ltac:(by split; split; vm_compute)
          ltac:(by split; split; vm_compute)
          ltac:(by vm_compute) ltac:(by vm_compute)).
Defined.

Lemma signup_keeps_roles_witness :
  let body := Sample.signup_body (str "dee@x.io") (str "secret1")
                (str "Dee") (str "housekeeper") in
  all (fun q => isValidRole (Profile.role q))
      (profiles
         (db (signup Sample.hash Sample.token Sample.lower body
                (Sample.world_of Sample.store)).2)).
Proof.
exact: (@signup_keeps_roles Sample.hash Sample.token Sample.lower
          (Sample.signup_body (str "dee@x.io") (str "secret1")
             (str "Dee") (str "housekeeper"))
          (Sample.world_of Sample.store) ltac:(by vm_compute)).
Defined.

Lemma signup_keeps_emails_distinct_witness :
  let body := Sample.signup_body (str "ADA@x.io") (str "secret1")
                (str "Ada again") (str "owner") in
  uniq [seq User.email u
       | u <- users
                (db (signup Sample.hash Sample.token Sample.lower body
                       (World Sample.store [::] [:: str "n1"] 9 [::])).2)].
Proof.
exact: (@signup_keeps_emails_distinct Sample.hash Sample.token Sample.lower
          (Sample.signup_body (str "ADA@x.io") (str "secret1")
             (str "Ada again") (str "owner"))
          Sample.store [:: str "n1"] 9 [::] ltac:(by vm_compute)).
Defined.

Lemma login_no_enumeration_witness :
  let body := [:: (str "email", JStr (str "ada@x.io"));
                  (str "password", JStr (str "guess"))] in
  (login Sample.compare Sample.token Sample.lower body
     (World Sample.store [::] [::] 9 [::])).1
    = (login Sample.compare Sample.token Sample.lower body
         (World (Database [::] [::] [::]) [::] [::] 9 [::])).1.
Proof.
move=> body.
have [_ H] :=
  @login_no_enumeration Sample.compare Sample.token Sample.lower body
    (str "ada@x.io") (str "guess") (Database [::] [::] [::]) Sample.store
    [::] 9 [::] (User.Mk Sample.ada (str "ada@x.io") (str "pw-ada") 1)
    ltac:(by vm_compute) ltac:(by vm_compute) ltac:(by vm_compute) ltac:(by vm_compute) ltac:(by vm_compute) ltac:(by vm_compute) ltac:(by vm_compute).
exact: H.
Defined.

Lemma login_ignores_case_witness :
  let body1 := [:: (str "email", JStr (str "Ada@X.io"));
                   (str "password", JStr (str "pw-ada"))] in
  let body2 := [:: (str "email", JStr (str "ada@x.io"));
                   (str "password", JStr (str "pw-ada"))] in
  login Sample.compare Sample.token Sample.lower body1
    (Sample.world_of Sample.store)
    = login Sample.compare Sample.token Sample.lower body2
        (Sample.world_of Sample.store).
Proof.
move=> body1 body2.
exact: (@login_ignores_case Sample.compare Sample.token Sample.lower
          body1 body2 (str "Ada@X.io") (str "ada@x.io")
          (Sample.world_of Sample.store)
          ltac:(by vm_compute) ltac:(by vm_compute) ltac:(by vm_compute) ltac:(by vm_compute) ltac:(by vm_compute) ltac:(by vm_compute)).
Defined.

(* --------------------------------------------------------------------- *)
(* Refusals of getUsers and deleteMessage                                *)
(* --------------------------------------------------------------------- *)

(** X18: a requester without exactly one profile row gets no contact
    list.  Without store failures, when the profiles table holds no row
    or several rows for the requester, getUsers answers 500 with the
    error 'Could not find user profile', after the one look-up. *)
Theorem getUsers_without_profile (u : uuid) (d : database) (us : seq uuid)
  (t : timestamp) (l : seq event) :
  size [seq p <- profiles d | Profile.user_id p == u] != 1 ->
  getUsers u (World d [::] us t l)
    = (Response 500 false (Some (str "Error fetching users")) NoData
         (Some (str "Could not find user profile")),
       World d [::] us t (l ++ [:: Event (OpSelect Profiles) true])).
Proof.
move=> Hsz; rewrite /getUsers /handle; unfold_store; rewrite /=.
by case: [seq p <- _ | _] Hsz => [|x [|y ys]] //= _; rewrite cats1.
Qed.

Lemma getUsers_without_profile_witness :
  getUsers (str "ghost") (Sample.world_of Sample.store)
    = (Response 500 false (Some (str "Error fetching users")) NoData
         (Some (str "Could not find user profile")),
       World Sample.store [::] [:: str "n1"; str "n2"] 9
         [:: Event (OpSelect Profiles) true]).
Proof.
exact: (@getUsers_without_profile (str "ghost") Sample.store
          [:: str "n1"; str "n2"] 9 [::] ltac:(by vm_compute)).
Defined.

(** X19: what deleteMessage refuses.  Without store failures, a message
    id that does not name exactly one row is answered 404, and a
    requester who is neither the sender nor the receiver of the message
    is answered 403, in either mode; in both cases the store is as it
    was and no update is issued. *)
Theorem deleteMessage_refusals (r mid : uuid) (body : jsobj) (d : database)
  (us : seq uuid) (t : timestamp) (l : seq event) :
  let found := [seq x <- messages d | Message.id x == mid] in
  (size found != 1 ->
   deleteMessage r mid body (World d [::] us t l)
     = (json 404 false (str "Message not found") NoData,
        World d [::] us t (l ++ [:: Event (OpSelect Messages) true])))
  /\ (forall m, found = [:: m] ->
      Message.sender_id m != r -> Message.receiver_id m != r ->
      deleteMessage r mid body (World d [::] us t l)
        = (json 403 false (str "Unauthorized to delete this message") NoData,
           World d [::] us t (l ++ [:: select_ok Messages]))).
Proof.
move=> found; rewrite /deleteMessage /handle; unfold_store.
rewrite /= -/found; split.
- by case: found => [|x [|y ys]] //= _; rewrite cats1.
- by move=> m -> /= -> -> /=; rewrite cats1.
Qed.

Lemma deleteMessage_refusals_witness :
  deleteMessage Sample.cy (str "m1") [::]
    (World Sample.store [::] [:: str "n1"; str "n2"] 9 [::])
    = (json 403 false (str "Unauthorized to delete this message") NoData,
       World Sample.store [::] [:: str "n1"; str "n2"] 9
         [:: select_ok Messages])
  /\ deleteMessage Sample.ada (str "m9") [::]
       (World Sample.store [::] [:: str "n1"; str "n2"] 9 [::])
     = (json 404 false (str "Message not found") NoData,
        World Sample.store [::] [:: str "n1"; str "n2"] 9
          [:: Event (OpSelect Messages) true]).
Proof.
have [H404 _] :=
  @deleteMessage_refusals Sample.ada (str "m9") [::] Sample.store
    [:: str "n1"; str "n2"] 9 [::].
have [_ H403] :=
  @deleteMessage_refusals Sample.cy (str "m1") [::] Sample.store
    [:: str "n1"; str "n2"] 9 [::].
split.
- exact: (H403 Sample.hi ltac:(by vm_compute) ltac:(by vm_compute)
            ltac:(by vm_compute)).
- exact: (H404 ltac:(by vm_compute)).
Defined.

(* Whether the message of a given id is in a conversation view. *)
Lemma id_in_view (Date : timestamp -> nat) (u o key : uuid) (d : database)
  (m : Message.t) :
  [seq x <- messages d | Message.id x == key] = [:: m] ->
  (key \in
     [seq Message.id x
     | x <- sort (by_date Date)
              ([seq x <- messages d | sent_visible u o x]
               ++ [seq x <- messages d | received_visible u o x])])
    = sent_visible u o m || received_visible u o m.
Proof.
move=> Hm.
have Hin : m \in [seq x <- messages d | Message.id x == key].
  by rewrite Hm mem_head.
move: Hin; rewrite mem_filter => /andP [/eqP Hid Hmd].
apply/mapP/idP => [[x Hx Hk]|Hv].
  have Hxm : x = m.
    have: x \in [seq x <- messages d | Message.id x == key].
      move: Hx; rewrite mem_sort mem_cat !mem_filter.
      by rewrite -Hk eqxx /=; case/orP=> /andP [].
    by rewrite Hm inE => /eqP.
  move: Hx; rewrite mem_sort mem_cat !mem_filter Hxm.
  by case/orP=> /andP [-> _] //; rewrite orbT.
exists m => //.
by rewrite mem_sort mem_cat !mem_filter Hmd !andbT.
Qed.

(** X20: deleting for oneself hides a message from one side only.  For a
    message between two different users, with deleteForEveryone other
    than true and without store failures, after the delete the message
    is in none of the requester's conversation views, and it is in the
    other party's view of the conversation exactly when the other
    party's own flag was not set before. *)
Theorem delete_for_me_views (r mid : uuid) (body : jsobj) (d : database)
  (us : seq uuid) (t : timestamp) (l : seq event) (m : Message.t) :
  strict_true (get body (str "deleteForEveryone")) = false ->
  [seq x <- messages d | Message.id x == mid] = [:: m] ->
  (Message.sender_id m == r) || (Message.receiver_id m == r) ->
  Message.sender_id m != Message.receiver_id m ->
  let d' := db (deleteMessage r mid body (World d [::] us t l)).2 in
  let other := if Message.sender_id m == r then Message.receiver_id m
               else Message.sender_id m in
  let others_flag := if Message.sender_id m == r
                     then Message.deleted_for_receiver m
                     else Message.deleted_for_sender m in
  let view u o Date us' t' l' :=
    data (getConversation Date u o (World d' [::] us' t' l')).1 in
  forall Date us' t' l',
    (forall o, exists L,
        view r o Date us' t' l' = MessageList L
        /\ mid \notin [seq Message.id x | x <- L])
    /\ (exists L,
          view other r Date us' t' l' = MessageList L
          /\ (mid \in [seq Message.id x | x <- L]) = ~~ others_flag).
Proof.
move=> Hb Hm Hparty Hne d' other others_flag view Date us' t' l'.
have Hrun := deleteMessage_run body us t l Hm Hparty.
rewrite /= Hb /= in Hrun.
set fields := if Message.sender_id m == r then mark_sender else mark_receiver.
have Hid : forall x, Message.id (fields x) = Message.id x.
  by rewrite /fields; case: ifP.
have Hrow : [seq x <- messages d' | Message.id x == mid] = [:: fields m].
  by rewrite /d' Hrun /=; exact: update_row Hid _ _ Hm.
rewrite /view; split=> [o|]; rewrite getConversation_run /=;
  eexists; split; try reflexivity; rewrite (id_in_view _ _ _ Hrow).
- rewrite /fields /sent_visible /received_visible.
  case Hs: (Message.sender_id m == r) Hparty => /= Hparty; rewrite Hs /=.
    rewrite andbF /=; apply/negP => /and3P [_ /eqP Hr' _].
    by move: Hne; rewrite (eqP Hs) Hr' eqxx.
  by rewrite Hparty /= !andbF.
- rewrite /fields /sent_visible /received_visible /other /others_flag.
  by case Hs: (Message.sender_id m == r) Hparty => /= Hparty;
     rewrite ?Hs ?Hparty ?eqxx /= ?andbF ?orbF.
Qed.

Lemma delete_for_me_views_witness :
  let d' := db (deleteMessage Sample.ada (str "m1") [::]
                  (World Sample.store [::] [::] 9 [::])).2 in
  (forall o, exists L,
      data (getConversation id Sample.ada o (World d' [::] [::] 0 [::])).1
        = MessageList L
      /\ str "m1" \notin [seq Message.id x | x <- L])
  /\ (exists L,
        data (getConversation id Sample.bo Sample.ada
                (World d' [::] [::] 0 [::])).1 = MessageList L
        /\ (str "m1" \in [seq Message.id x | x <- L]) = ~~ false).
Proof.
exact: (@delete_for_me_views Sample.ada (str "m1") [::] Sample.store
          [::] 9 [::] Sample.hi
          ltac:(by vm_compute) ltac:(by vm_compute) ltac:(by vm_compute)
          ltac:(by vm_compute) id [::] 0 [::]).
Defined.

(* --------------------------------------------------------------------- *)
(* The earlier controller against the current one                        *)
(* --------------------------------------------------------------------- *)

(** X21: on a store where no message carries a delete flag, the earlier
    getConversation and the current one give the same answer and leave
    the same world, for every pair of users and whatever the store
    answers. *)
Theorem legacy_getConversation_agrees (Date : timestamp -> nat)
  (u o : uuid) (w : world) :
  all (fun m => ~~ Message.deleted_for_sender m
                && ~~ Message.deleted_for_receiver m) (messages (db w)) ->
  Legacy.getConversation Date u o w = getConversation Date u o w.
Proof.
case: w => d fs us t l /= /allP Hall.
have Es : [seq m <- messages d
          | (Message.sender_id m == u) && (Message.receiver_id m == o)]
          = [seq m <- messages d
            | [&& Message.sender_id m == u, Message.receiver_id m == o
                & Message.deleted_for_sender m == false]].
  apply: eq_in_filter => m /Hall /andP [/negbTE -> _].
  by rewrite eqxx !andbT.
have Er : [seq m <- messages d
          | (Message.sender_id m == o) && (Message.receiver_id m == u)]
          = [seq m <- messages d
            | [&& Message.sender_id m == o, Message.receiver_id m == u
                & Message.deleted_for_receiver m == false]].
  apply: eq_in_filter => m /Hall /andP [_ /negbTE ->].
  by rewrite eqxx !andbT.
rewrite /Legacy.getConversation /getConversation /handle; unfold_store.
by rewrite /=; explore; rewrite ?Es ?Er.
Qed.

Lemma legacy_getConversation_agrees_witness :
  Legacy.getConversation id Sample.ada Sample.bo
    (Sample.world_of Sample.store)
    = getConversation id Sample.ada Sample.bo (Sample.world_of Sample.store).
Proof.
exact: (@legacy_getConversation_agrees id Sample.ada Sample.bo
          (Sample.world_of Sample.store) ltac:(by vm_compute)).
Defined.

(** X22: the access rules only narrow the contact list.  Without store
    failures, the earlier getUsers answers 200 with every profile but
    the requester's, sorted by name; and whenever the current getUsers
    answers with a contact list, each profile in it is in the earlier
    list too. *)
Theorem legacy_getUsers_covers (u : uuid) (d : database) (us : seq uuid)
  (t : timestamp) (l : seq event) :
  exists Ll : seq Profile.t,
    [/\ Legacy.getUsers u (World d [::] us t l)
          = (Response 200 true None (ProfileList Ll) None,
             World d [::] us t (l ++ [:: select_ok Profiles])),
        perm_eq Ll [seq p <- profiles d | Profile.user_id p != u],
        sorted by_name Ll
      & forall Lc,
          data (getUsers u (World d [::] us t l)).1 = ProfileList Lc ->
          {subset Lc <= Ll}].
Proof.
exists (sort by_name [seq p <- profiles d | Profile.user_id p != u]); split.
- by rewrite /Legacy.getUsers /handle; unfold_store; rewrite /= cats1.
- by rewrite perm_sort.
- exact: (sort_sorted by_name_total).
- move=> Lc; rewrite /getUsers /handle; unfold_store; rewrite /=.
  case Hcur: [seq p <- profiles d | Profile.user_id p == u]
    => [|cur [|c2 rest]] //=.
  have Hown : forall p, p \in profiles d -> Profile.user_id p == u -> p = cur.
    move=> p Hp Hu.
    have: p \in [seq p <- profiles d | Profile.user_id p == u].
      by rewrite mem_filter Hu.
    by rewrite Hcur inE => /eqP.
  case Hh: (Profile.role cur == HOUSEKEEPER) => /=.
    case=> <- p; rewrite !mem_sort !mem_filter.
    by case/andP=> /andP [_ ->].
  case Ho: (Profile.role cur == OWNER) => /=; last first.
    by case=> <-.
  set ids := conversedUserIds _ _.
  have Hsub : forall p,
      p \in sort by_name
              [seq p <- profiles d
              | (Profile.role p == OWNER) && (Profile.user_id p != u)]
            ++ sort by_name
                 [seq p <- profiles d
                 | (Profile.role p == HOUSEKEEPER)
                   && (Profile.user_id p \in ids)] ->
      p \in sort by_name [seq p <- profiles d | Profile.user_id p != u].
    move=> p; rewrite mem_cat !mem_sort !mem_filter.
    case/orP=> /andP [/andP [Hr Hc] Hp]; rewrite Hp andbT //.
    apply/negP => Hu; move: Hr; rewrite (Hown p Hp Hu).
    by rewrite Hh.
  case: (0 < size ids) => /=.
    by case=> <- p; exact: Hsub.
  case=> <- p; rewrite cats0 => Hp; apply: Hsub.
  by rewrite mem_cat Hp.
Qed.

(** X23: the gate only refuses.  Without store failures, whenever the
    current sendMessage stores a message and answers 201, the earlier
    sendMessage gives the same answer to the same request and leaves the
    same tables. *)
Theorem legacy_sendMessage_covers (s : uuid) (body : jsobj) (d : database)
  (us : seq uuid) (t : timestamp) (l : seq event) :
  status (sendMessage s body (World d [::] us t l)).1 = 201 ->
  (Legacy.sendMessage s body (World d [::] us t l)).1
    = (sendMessage s body (World d [::] us t l)).1
  /\ db (Legacy.sendMessage s body (World d [::] us t l)).2
     = db (sendMessage s body (World d [::] us t l)).2.
Proof.
rewrite /Legacy.sendMessage /sendMessage /handle /bind /eval.
case: (validateRequiredFields _ _) => [v|m] //=.
case: (isValid v) => //=.
case: (call_trim _) => [tr|m] //=.
case: (~~ _) => //=.
by unfold_store; rewrite /=; explore.
Qed.

Lemma legacy_sendMessage_covers_witness :
  let body := Sample.send_body Sample.bo (str "ok") in
  (Legacy.sendMessage Sample.ada body
     (World Sample.store [::] [:: str "n1"] 9 [::])).1
    = (sendMessage Sample.ada body
         (World Sample.store [::] [:: str "n1"] 9 [::])).1
  /\ db (Legacy.sendMessage Sample.ada body
           (World Sample.store [::] [:: str "n1"] 9 [::])).2
     = db (sendMessage Sample.ada body
             (World Sample.store [::] [:: str "n1"] 9 [::])).2.
Proof.
move=> body.
exact: (@legacy_sendMessage_covers Sample.ada body Sample.store
          [:: str "n1"] 9 [::] ltac:(by vm_compute)).
Defined.

(* --------------------------------------------------------------------- *)
(* The two sides of a conversation, and contacts against the gate        *)
(* --------------------------------------------------------------------- *)

(** X24: both parties see the same thread.  On a store where no message
    carries a delete flag and without store failures, getConversation
    answers the two parties with the same messages (one list is a
    permutation of the other); and when no two stored messages have the
    same Date, with the very same list. *)
Theorem conversation_views_agree (Date : timestamp -> nat) (u o : uuid)
  (d : database) (us : seq uuid) (t : timestamp) (l : seq event) :
  all (fun m => ~~ Message.deleted_for_sender m
                && ~~ Message.deleted_for_receiver m) (messages d) ->
  exists L L' : seq Message.t,
    [/\ (getConversation Date u o (World d [::] us t l)).1
          = Response 200 true None (MessageList L) None,
        (getConversation Date o u (World d [::] us t l)).1
          = Response 200 true None (MessageList L') None,
        perm_eq L L'
      & {in messages d &, injective (Date \o Message.created_at)} ->
        L = L'].
Proof.
move=> /allP Hall.
set Suo := [seq m <- messages d | sent_visible u o m].
set Ruo := [seq m <- messages d | received_visible u o m].
set Sou := [seq m <- messages d | sent_visible o u m].
set Rou := [seq m <- messages d | received_visible o u m].
have E1 : Sou = Ruo.
  apply: eq_in_filter => m /Hall /andP [/negbTE Hs /negbTE Hr].
  by rewrite /sent_visible /received_visible Hs Hr.
have E2 : Rou = Suo.
  apply: eq_in_filter => m /Hall /andP [/negbTE Hs /negbTE Hr].
  by rewrite /sent_visible /received_visible Hs Hr.
have Hperm : perm_eq (Suo ++ Ruo) (Sou ++ Rou).
  by rewrite E1 E2 perm_catC.
exists (sort (by_date Date) (Suo ++ Ruo)), (sort (by_date Date) (Sou ++ Rou)).
split; rewrite ?getConversation_run //.
- by rewrite perm_sort perm_sym perm_sort perm_sym.
- move=> Hinj; apply/perm_sort_inP => //.
  + by move=> a b _ _; exact: by_date_total.
  + by move=> a b c _ _ _; exact: by_date_trans.
  + move=> a b; rewrite !mem_cat !mem_filter => Ha Hb.
    rewrite /by_date -eqn_leq => /eqP E; apply: Hinj => //.
      by case/orP: Ha => /andP [].
    by case/orP: Hb => /andP [].
Qed.

Lemma conversation_views_agree_witness :
  exists L L' : seq Message.t,
    [/\ (getConversation id Sample.ada Sample.bo
           (World Sample.store [::] [::] 9 [::])).1
          = Response 200 true None (MessageList L) None,
        (getConversation id Sample.bo Sample.ada
           (World Sample.store [::] [::] 9 [::])).1
          = Response 200 true None (MessageList L') None,
        perm_eq L L'
      & {in messages Sample.store &, injective (id \o Message.created_at)} ->
        L = L'].
Proof.
exact: (@conversation_views_agree id Sample.ada Sample.bo Sample.store
          [::] 9 [::] ltac:(by vm_compute)).
Defined.

(** X25: an owner's contact list and the gate agree on housekeepers.
    Without store failures, for an owner u and a housekeeper v with one
    profile each, v's profile is in the list getUsers gives u exactly
    when a message from u to v with well-formed fields is stored and
    answered 201, and that is exactly when a message row between the two
    exists. *)
Theorem contacts_match_gate (u v text : jsstring) (body : jsobj)
  (d : database) (us : seq uuid) (t : timestamp) (l : seq event)
  (vu : User.t) (up vp : Profile.t) :
  [seq p <- profiles d | Profile.user_id p == u] = [:: up] ->
  Profile.role up = OWNER ->
  [seq p <- profiles d | Profile.user_id p == v] = [:: vp] ->
  Profile.role vp = HOUSEKEEPER ->
  [seq x <- users d | User.id x == v] = [:: vu] ->
  [/\ get body (str "receiver_id") = JStr v,
      get body (str "message") = JStr text, trim v != [::]
    & trim text != [::]] ->
  exists L : seq Profile.t,
    [/\ (getUsers u (World d [::] us t l)).1
          = Response 200 true None (ProfileList L) None,
        (vp \in L) = conversationExists d u v
      & (status (sendMessage u body (World d [::] us t l)).1 == 201)
          = conversationExists d u v].
Proof.
move=> Hup Hur Hvp Hvr Hvu [Hr Hm Hrt Hmt].
have Hne : u != v.
  apply/eqP => E; move: Hvp; rewrite -E Hup => -[E'].
  by move: Hur; rewrite E' Hvr => /eqP; rewrite eq_sym OWNER_not_HOUSEKEEPER.
have Hvin : vp \in profiles d.
  have: vp \in [seq p <- profiles d | Profile.user_id p == v].
    by rewrite Hvp mem_head.
  by rewrite mem_filter => /andP [].
have Hvid : Profile.user_id vp = v.
  have: vp \in [seq p <- profiles d | Profile.user_id p == v].
    by rewrite Hvp mem_head.
  by rewrite mem_filter => /andP [/eqP].
set ids := conversedUserIds u
             [seq m <- messages d
             | (Message.sender_id m == u) || (Message.receiver_id m == u)].
have Hids : (v \in ids) = conversationExists d u v by exact: conversed_exists.
exists (sort by_name
          [seq p <- profiles d
          | (Profile.role p == OWNER) && (Profile.user_id p != u)]
        ++ (if 0 < size ids
            then sort by_name
                   [seq p <- profiles d
                   | (Profile.role p == HOUSEKEEPER)
                     && (Profile.user_id p \in ids)]
            else [::])); split.
- rewrite /getUsers /handle; unfold_store.
  rewrite /= Hup /= Hur OWNER_not_HOUSEKEEPER eqxx /= -/ids.
  by case: (0 < size ids).
- rewrite mem_cat mem_sort mem_filter Hvr.
  rewrite [HOUSEKEEPER == OWNER]eq_sym OWNER_not_HOUSEKEEPER /=.
  rewrite -Hids; case Hsz: (0 < size ids).
    by rewrite mem_sort mem_filter Hvr eqxx Hvid Hvin andbT.
  by move: Hsz; rewrite lt0n => /negbFE /eqP /size0nil ->.
- rewrite /sendMessage /handle /bind /eval /=.
  rewrite Hr Hm /= (negbTE Hrt) (negbTE Hmt) (trim_nonempty Hrt)
          (trim_nonempty Hmt) /=.
  unfold_store; rewrite /= Hvu /= (negbTE Hne) /= Hup /= Hur ?eqxx /=.
  rewrite Hvp /= Hvr ?eqxx /= !limit1_has -has_predU.
  have -> : has (predU
                   (fun m => (Message.sender_id m == u)
                             && (Message.receiver_id m == v))
                   (fun m => (Message.sender_id m == v)
                             && (Message.receiver_id m == u)))
                (messages d)
            = conversationExists d u v by [].
  by case: (conversationExists d u v).
Qed.

Lemma contacts_match_gate_witness :
  exists L : seq Profile.t,
    [/\ (getUsers Sample.ada
           (World Sample.store [::] [:: str "n1"] 9 [::])).1
          = Response 200 true None (ProfileList L) None,
        (Profile.Mk (str "p2") Sample.bo (str "Bo") HOUSEKEEPER 2 \in L)
          = conversationExists Sample.store Sample.ada Sample.bo
      & (status (sendMessage Sample.ada
                   (Sample.send_body Sample.bo (str "ok"))
                   (World Sample.store [::] [:: str "n1"] 9 [::])).1 == 201)
          = conversationExists Sample.store Sample.ada Sample.bo].
Proof.
exact: (@contacts_match_gate Sample.ada Sample.bo (str "ok")
          (Sample.send_body Sample.bo (str "ok")) Sample.store
          [:: str "n1"] 9 [::]
          (User.Mk Sample.bo (str "bo@x.io") (str "pw-bo") 2)
          (Profile.Mk (str "p1") Sample.ada (str "Ada") OWNER 1)
          (Profile.Mk (str "p2") Sample.bo (str "Bo") HOUSEKEEPER 2)
          ltac:(by vm_compute) ltac:(by vm_compute) ltac:(by vm_compute)
          ltac:(by vm_compute) ltac:(by vm_compute)
          ltac:(by split; vm_compute)).
Defined.

(* --------------------------------------------------------------------- *)
(* Answers and effects, whatever the store answers                       *)
(* --------------------------------------------------------------------- *)

Lemma single_one (A : Type) (s : seq A) (x : A) :
  single s = Data x -> s = [:: x].
Proof. by case: s => [|y [|z s]] //= [->]. Qed.

Lemma database_eta (d d' : database) :
  users d' = users d -> profiles d' = profiles d ->
  messages d' = messages d -> d' = d.
Proof. by case: d d' => u p m [u' p' m'] /= -> -> ->. Qed.

(** X26: sendMessage stores a row exactly when it answers 201, whatever
    the request and whatever the store answers.  With any other answer
    the store is as it was.  With 201 exactly one row was appended to
    messages; it is the row of the answer, its sender is the
    authenticated user, its body is the trimmed message, and the
    receiver_id of the request is a string; when that string is written
    as the store writes ids, it is the row's receiver and is not the
    sender's id. *)
Theorem sendMessage_stores_iff_201 (s : uuid) (body : jsobj) (w : world) :
  let out := sendMessage s body w in
  if status out.1 == 201 then
    exists (m : Message.t) (r : jsstring),
      [/\ db out.2
            = Database (users (db w)) (profiles (db w))
                (rcons (messages (db w)) m),
          data out.1 = OneMessage m,
          Message.sender_id m = s,
          get body (str "receiver_id") = JStr r
          /\ (canonical_uuid r -> Message.receiver_id m = r /\ r != s)
        & Message.message m = trim (string_of (get body (str "message")))]
  else db out.2 = db w.
Proof.
move=> out; have [Hu Hp] := sendMessage_effect s body w.
rewrite -/out in Hu Hp *.
case=> [[Hm Hst]|[m [Hm Hout [_ Hs Hr Hrs _] [Hb _] _]]].
  by rewrite (negbTE Hst); exact: database_eta.
rewrite Hout /=; exists m, (Message.receiver_id m); split=> //.
by case: (db out.2) Hu Hp Hm => u p ms /= -> -> ->.
Qed.

(** X27: deleteMessage changes the store only when it answers 200,
    whatever the request and whatever the store answers; and when it
    answers 200, the message id names exactly one stored row, the
    requester is its sender or its receiver, and is its sender when
    deleteForEveryone is true. *)
Theorem deleteMessage_authorised (r mid : uuid) (body : jsobj) (w : world) :
  let out := deleteMessage r mid body w in
  if status out.1 == 200 then
    exists m : Message.t,
      [/\ [seq x <- messages (db w) | Message.id x == mid] = [:: m],
          (Message.sender_id m == r) || (Message.receiver_id m == r)
        & strict_true (get body (str "deleteForEveryone")) ->
          Message.sender_id m = r]
  else db out.2 = db w.
Proof.
case: w => d fs us t l.
rewrite /deleteMessage /handle; unfold_store; rewrite /=.
case: fs => [|[e|] fs] /=; try by [].
all: case Hs: (single _) => [m|e] //=.
all: have Hm := single_one Hs.
all: case Hsm: (Message.sender_id m == r);
       case Hrm: (Message.receiver_id m == r);
       case Hde: (strict_true _) => //=.
all: try (case: fs => [|[e|] fs] //=).
all: exists m; split=> //; first by rewrite Hsm Hrm.
all: by first [by [] | move=> _; exact/eqP].
Qed.

(** X28: when signup answers 400.  For a request whose four fields are
    strings, signup answers 400 exactly when the email is not of the
    accepted shape, or the password is shorter than six or white space
    only, or the name is empty or white space only, or the role is not
    one of the two; this holds whatever the store answers, and a 400
    comes before any store call: the world is as it was. *)
Theorem signup_bad_request (hashPassword : jsstring -> jsstring)
  (generateToken : uuid -> jsstring -> jsstring -> jsstring)
  (toLowerCase : jsstring -> jsstring)
  (body : jsobj) (e p n r : jsstring) (w : world) :
  [/\ get body (str "email") = JStr e, get body (str "password") = JStr p,
      get body (str "name") = JStr n & get body (str "role") = JStr r] ->
  let out := signup hashPassword generateToken toLowerCase body w in
  (status out.1 == 400)
    = ~~ [&& isValidEmail e, isValidPassword p, trim p != [::],
             trim n != [::] & isValidRole r]
  /\ (status out.1 = 400 -> out.2 = w).
Proof.
case=> He Hp Hn Hr; case: w => d fs us t l.
rewrite /signup /handle /bind /eval !validate_step He Hp Hn Hr.
rewrite /filled_in /left_out /truthy -!trim_nil.
case Hve: (isValidEmail e); last first.
  by case: (trim e == _); case: (trim p == _); case: (trim n == _);
     case: (trim r == _); rewrite /= ?Hve /=; case: (e != [::]);
     case: (p != [::]); case: (n != [::]); case: (r != [::]).
case Hvr: (isValidRole r); last first.
  by rewrite andbF /=; case: (trim e == _); case: (trim p == _);
     case: (trim n == _); case: (trim r == _);
     rewrite /= ?Hve /= ?Hvr /=; case: (e != [::]);
     case: (p != [::]); case: (n != [::]); case: (r != [::]);
     rewrite /=; case: (isValidPassword p).
have := isValidEmail_filled Hve; rewrite /filled_in -trim_nil => /negbTE->.
have := isValidRole_filled Hvr; rewrite /filled_in -trim_nil => /negbTE->.
rewrite andbT /=.
case Htp: (trim p == [::]) => /=.
  by rewrite andbF /=; case: (p != [::]).
case Htn: (trim n == [::]) => /=.
  by rewrite andbF /=; case: (n != [::]).
case Hvp: (isValidPassword p) => //=.
by unfold_store; rewrite /=; explore.
Qed.

Lemma signup_bad_request_witness :
  let body := Sample.signup_body (str "dee@x.io") (str "12345")
                (str "Dee") (str "owner") in
  let w := World Sample.store [:: Some PGRST116] [:: str "n1"] 9 [::] in
  let out := signup Sample.hash Sample.token Sample.lower body w in
  (status out.1 == 400)
    = ~~ [&& isValidEmail (str "dee@x.io"), isValidPassword (str "12345"),
             trim (str "12345") != [::], trim (str "Dee") != [::]
           & isValidRole (str "owner")]
  /\ (status out.1 = 400 -> out.2 = w).
Proof.
exact: (@signup_bad_request Sample.hash Sample.token Sample.lower
          (Sample.signup_body (str "dee@x.io") (str "12345") (str "Dee")
             (str "owner"))
          (str "dee@x.io") (str "12345") (str "Dee") (str "owner")
          (World Sample.store [:: Some PGRST116] [:: str "n1"] 9 [::])
          ltac:(by split; vm_compute)).
Defined.

(** X29: login answers 200 only on valid credentials, whatever the store
    answers.  When the answer is 200, the email and the password of the
    request are strings, the store holds exactly one user whose email is
    the lower-case form of that email, comparePassword accepted the
    password against that user's stored password, exactly one profile
    belongs to that user, and the session answered carries that user's
    id and email and that profile's name and role. *)
Theorem login_sound (comparePassword : jsstring -> jsstring -> bool)
  (generateToken : uuid -> jsstring -> jsstring -> jsstring)
  (toLowerCase : jsstring -> jsstring) (body : jsobj) (w : world) :
  let out := login comparePassword generateToken toLowerCase body w in
  status out.1 = 200 ->
  exists (e p : jsstring) (u : User.t) (pr : Profile.t),
    [/\ get body (str "email") = JStr e
        /\ get body (str "password") = JStr p,
        [seq x <- users (db w) | User.email x == toLowerCase e] = [:: u],
        comparePassword p (User.password u),
        [seq x <- profiles (db w) | Profile.user_id x == User.id u]
          = [:: pr]
      & data out.1
          = SessionData
              (Session (User.id u) (User.email u) (Profile.name pr)
                 (Profile.role pr) (User.created_at u)
                 (generateToken (User.id u) (User.email u)
                    (Profile.role pr)))].
Proof.
case: w => d fs us t l.
rewrite /login /handle /bind /eval.
case Hv: (validateRequiredFields _ _) => [v|msg] //=.
case Hval: (isValid v) => //=.
have [|e He _] := validate_field (f := str "email") Hv Hval.
  by rewrite !inE eqxx.
have [|p Hp _] := validate_field (f := str "password") Hv Hval.
  by rewrite !inE eqxx orbT.
rewrite He Hp /=.
case: (isValidEmail e) => //=.
unfold_store; rewrite /=.
case: fs => [|[er|] fs] //=.
all: case Hs: (single _) => [u|er] //=.
all: have Hu := single_one Hs.
all: case Hc: (comparePassword p (User.password u)) => //=.
all: try (case: fs => [|[er|] fs] //=).
all: case Hs': (single _) => [pr|er] //=.
all: have Hpr := single_one Hs'.
all: by move=> _; exists e, p, u, pr.
Qed.

Lemma login_sound_witness :
  exists (e p : jsstring) (u : User.t) (pr : Profile.t),
    [/\ get [:: (str "email", JStr (str "Ada@X.io"));
                (str "password", JStr (str "pw-ada"))] (str "email")
          = JStr e
        /\ get [:: (str "email", JStr (str "Ada@X.io"));
                   (str "password", JStr (str "pw-ada"))] (str "password")
           = JStr p,
        [seq x <- users Sample.store | User.email x == Sample.lower e]
          = [:: u],
        Sample.compare p (User.password u),
        [seq x <- profiles Sample.store | Profile.user_id x == User.id u]
          = [:: pr]
      & data (login Sample.compare Sample.token Sample.lower
                [:: (str "email", JStr (str "Ada@X.io"));
                    (str "password", JStr (str "pw-ada"))]
                (Sample.world_of Sample.store)).1
          = SessionData
              (Session (User.id u) (User.email u) (Profile.name pr)
                 (Profile.role pr) (User.created_at u)
                 (Sample.token (User.id u) (User.email u)
                    (Profile.role pr)))].
Proof.
exact: (@login_sound Sample.compare Sample.token Sample.lower
          [:: (str "email", JStr (str "Ada@X.io"));
              (str "password", JStr (str "pw-ada"))]
          (Sample.world_of Sample.store) ltac:(by vm_compute)).
Defined.

(** X30: the reading handlers never show a requester someone else's
    messages, whatever the store answers.  Every message getMessages
    lists is a stored row sent or received by the requester; every
    message getConversation lists is a stored row between the requester
    and the other user whose flag on the requester's side is down. *)
Theorem reading_handlers_show_own (Date : timestamp -> nat) (a b : uuid)
  (w : world) :
  (forall L m, data (getMessages a b w).1 = MessageList L -> m \in L ->
     m \in messages (db w)
     /\ (Message.sender_id m == a) || (Message.receiver_id m == a))
  /\ (forall L m,
        data (getConversation Date a b w).1 = MessageList L -> m \in L ->
        m \in messages (db w)
        /\ (sent_visible a b m || received_visible a b m)).
Proof.
case: w => d fs us t l; split=> L m.
- rewrite /getMessages /handle; unfold_store; rewrite /=.
  case: (altP (b =P a)) => [->|_] //=.
  by case: fs => [|[e|] fs] //= [<-] Hm; rewrite mem_sort mem_filter in Hm;
     case/andP: Hm => -> ->.
- rewrite /getConversation /handle; unfold_store; rewrite /=.
  by case: fs => [|[e|] fs] //=; try (case: fs => [|[e'|] fs] //=);
     case=> <- Hm; rewrite mem_sort mem_cat !mem_filter !eqbF_neg in Hm;
     rewrite /sent_visible /received_visible;
     case/orP: Hm => /andP[-> ->]; rewrite ?orbT.
Qed.
